(** * MotoApp: the 3D motorcycle viewer

    A shallow embedding of [src/components/MotorcycleModelViewer.tsx]:
    the defensive GLTF loader, the material classification pass, the
    fallback model builder, the pan-responder (rotation and pinch zoom),
    the render loop, the asset resolver and the patches of three.js,
    followed by the properties of the specification that concern them
    and by further properties read off the code.

    Conventions of the embedding.
    - A JavaScript number is a [jsnum]: a real, one of the two infinities
      or NaN.  Rounding is not modelled (arithmetic on finite values is
      exact), the exceptional values are: a division by zero gives an
      infinity or NaN as in JavaScript, and NaN propagates through
      [Math.min] and [Math.max].
    - Names are ASCII strings; a missing name is the empty string, which
      is what [x.name || (the empty string)] evaluates to.
    - A reference held in a React ref ([bikeModelRef]) is the index of the
      object in [scene.children], so that a mutation through the ref is a
      mutation of the object the scene holds. *)

From Stdlib Require Import Reals Lra Lia ZArith List String Ascii Bool.
Import ListNotations.

Set Warnings "-register-all".

(* ================================================================== *)
(** ** JavaScript numbers *)

Module JsNum.

Open Scope R_scope.

Inductive jsnum : Type :=
| Num (r : R)
| PosInf
| NegInf
| NaN.

Definition Rsign (r : R) : comparison :=
  if Rlt_dec 0 r then Gt else if Rlt_dec r 0 then Lt else Eq.

(** [a + b] *)
Definition jadd (a b : jsnum) : jsnum :=
  match a, b with
  | NaN, _ | _, NaN => NaN
  | Num x, Num y => Num (x + y)
  | PosInf, NegInf | NegInf, PosInf => NaN
  | PosInf, _ | _, PosInf => PosInf
  | NegInf, _ | _, NegInf => NegInf
  end.

(** [a - b] *)
Definition jsub (a b : jsnum) : jsnum :=
  match a, b with
  | NaN, _ | _, NaN => NaN
  | Num x, Num y => Num (x - y)
  | PosInf, PosInf | NegInf, NegInf => NaN
  | PosInf, _ | _, NegInf => PosInf
  | NegInf, _ | _, PosInf => NegInf
  end.

Definition inf_of_sign (c : comparison) : jsnum :=
  match c with Gt => PosInf | Lt => NegInf | Eq => NaN end.

Definition jneg (a : jsnum) : jsnum :=
  match a with
  | Num x => Num (- x)
  | PosInf => NegInf
  | NegInf => PosInf
  | NaN => NaN
  end.

(** [a * b] *)
Definition jmul (a b : jsnum) : jsnum :=
  match a, b with
  | NaN, _ | _, NaN => NaN
  | Num x, Num y => Num (x * y)
  | PosInf, Num y | Num y, PosInf => inf_of_sign (Rsign y)
  | NegInf, Num y | Num y, NegInf => jneg (inf_of_sign (Rsign y))
  | PosInf, PosInf | NegInf, NegInf => PosInf
  | PosInf, NegInf | NegInf, PosInf => NegInf
  end.

(** [a / b].  A zero divisor is the positive zero: the only divisors of
    the program are a square root and positive literals. *)
Definition jdiv (a b : jsnum) : jsnum :=
  match a, b with
  | NaN, _ | _, NaN => NaN
  | Num x, Num y =>
      if Req_dec_T y 0 then inf_of_sign (Rsign x) else Num (x / y)
  | Num _, (PosInf | NegInf) => Num 0
  | PosInf, Num y => if Rlt_dec y 0 then NegInf else PosInf
  | NegInf, Num y => if Rlt_dec y 0 then PosInf else NegInf
  | (PosInf | NegInf), (PosInf | NegInf) => NaN
  end.

(** [Math.min(a, b)]: NaN if either argument is NaN. *)
Definition Math_min (a b : jsnum) : jsnum :=
  match a, b with
  | NaN, _ | _, NaN => NaN
  | NegInf, _ | _, NegInf => NegInf
  | PosInf, x | x, PosInf => x
  | Num x, Num y => Num (Rmin x y)
  end.

(** [Math.max(a, b)]: NaN if either argument is NaN. *)
Definition Math_max (a b : jsnum) : jsnum :=
  match a, b with
  | NaN, _ | _, NaN => NaN
  | PosInf, _ | _, PosInf => PosInf
  | NegInf, x | x, NegInf => x
  | Num x, Num y => Num (Rmax x y)
  end.

(** [Math.sqrt(Math.pow(dx, 2) + Math.pow(dy, 2))] on finite arguments. *)
Definition hypot (dx dy : R) : R := sqrt (dx ^ 2 + dy ^ 2).

(** JavaScript truthiness of an optional number: [undefined], [0] and
    [NaN] are falsy. *)
Definition truthy (o : option jsnum) : bool :=
  match o with
  | None => false
  | Some NaN => false
  | Some (Num x) => if Req_dec_T x 0 then false else true
  | Some _ => true
  end.

(** [lo <= a <= hi] for a finite [a]; no infinity and no NaN is inside
    a closed interval of reals. *)
Definition in_closed (lo hi : R) (a : jsnum) : Prop :=
  match a with
  | Num x => lo <= x <= hi
  | _ => False
  end.

Definition finite (a : jsnum) : Prop :=
  match a with Num _ => True | _ => False end.

(** An optional number read where a number is needed: [undefined]
    behaves as NaN in arithmetic. *)
Definition orNaN (o : option jsnum) : jsnum :=
  match o with Some a => a | None => NaN end.

End JsNum.
Export JsNum.

(* ================================================================== *)
(** ** Strings: [toLowerCase] and [includes] *)

Module Str.

Open Scope string_scope.

Definition lower_ascii (c : ascii) : ascii :=
  let n := nat_of_ascii c in
  if (65 <=? n)%nat && (n <=? 90)%nat then ascii_of_nat (n + 32) else c.

Fixpoint toLowerCase (s : string) : string :=
  match s with
  | EmptyString => EmptyString
  | String c s' => String (lower_ascii c) (toLowerCase s')
  end.

(** [s.includes(k)] *)
Fixpoint includes (s k : string) : bool :=
  String.prefix k s ||
  match s with
  | EmptyString => false
  | String _ s' => includes s' k
  end.

(** [ks.some(k => s.includes(k))]: the [||] chains of the classifier. *)
Definition anyIncludes (s : string) (ks : list string) : bool :=
  existsb (includes s) ks.

End Str.
Export Str.

(* ================================================================== *)
(** ** Scene graph: materials, geometries, objects *)

Module Material.

Definition Texture := nat.

(** [material.color]: a THREE.Color, or the stub
    [{ setHex: () => {} }] the code installs when a material has none. *)
Inductive Color : Type :=
| ColorHex (hex : Z)
| ColorStub.

Definition setHex (c : Color) (hex : Z) : Color :=
  match c with
  | ColorHex _ => ColorHex hex
  | ColorStub => ColorStub
  end.

(** The fields of a three.js material that the program reads or writes.
    [emissive], [metalness] and [roughness] are absent ([None]) on a
    material class that does not have them (MeshBasicMaterial). *)
Record t : Type := mk {
  name : string;
  map : option Texture;
  normalMap : option Texture;
  roughnessMap : option Texture;
  metalnessMap : option Texture;
  aoMap : option Texture;
  emissiveMap : option Texture;
  color : option Color;
  emissive : option Z;
  metalness : option R;
  roughness : option R;
  opacity : R;
  transparent : bool;
  side : Z;
  needsUpdate : bool
}.

(** [new MeshStandardMaterial({ color, roughness, metalness })] with the
    defaults of three.js for what is not given. *)
Definition MeshStandardMaterial (c : Z) (rough metal : R) : t :=
  {| name := EmptyString; map := None; normalMap := None; roughnessMap := None;
     metalnessMap := None; aoMap := None; emissiveMap := None;
     color := Some (ColorHex c); emissive := Some 0%Z;
     metalness := Some metal; roughness := Some rough;
     opacity := 1; transparent := false; side := 0; needsUpdate := false |}.

(** [new MeshBasicMaterial()], the material of [new Mesh(geometry)]. *)
Definition MeshBasicMaterial : t :=
  {| name := EmptyString; map := None; normalMap := None; roughnessMap := None;
     metalnessMap := None; aoMap := None; emissiveMap := None;
     color := Some (ColorHex 0xffffff); emissive := None;
     metalness := None; roughness := None;
     opacity := 1; transparent := false; side := 0; needsUpdate := false |}.

(** The six texture slots, in the order the source clears them. *)
Definition slots (m : t) : list (option Texture) :=
  [map m; normalMap m; roughnessMap m; metalnessMap m; aoMap m;
   emissiveMap m].

Definition noTextures (m : t) : bool :=
  forallb (fun s => match s with None => true | Some _ => false end)
          (slots m).

Definition set_textures (m : t) (t1 t2 t3 t4 t5 t6 : option Texture) : t :=
  mk (name m) t1 t2 t3 t4 t5 t6 (color m) (emissive m) (metalness m)
     (roughness m) (opacity m) (transparent m) (side m) (needsUpdate m).

Definition set_color (m : t) (c : option Color) : t :=
  mk (name m) (map m) (normalMap m) (roughnessMap m) (metalnessMap m)
     (aoMap m) (emissiveMap m) c (emissive m) (metalness m) (roughness m)
     (opacity m) (transparent m) (side m) (needsUpdate m).

Definition set_emissive (m : t) (e : option Z) : t :=
  mk (name m) (map m) (normalMap m) (roughnessMap m) (metalnessMap m)
     (aoMap m) (emissiveMap m) (color m) e (metalness m) (roughness m)
     (opacity m) (transparent m) (side m) (needsUpdate m).

Definition set_metalness (m : t) (x : R) : t :=
  mk (name m) (map m) (normalMap m) (roughnessMap m) (metalnessMap m)
     (aoMap m) (emissiveMap m) (color m) (emissive m) (Some x) (roughness m)
     (opacity m) (transparent m) (side m) (needsUpdate m).

Definition set_roughness (m : t) (x : R) : t :=
  mk (name m) (map m) (normalMap m) (roughnessMap m) (metalnessMap m)
     (aoMap m) (emissiveMap m) (color m) (emissive m) (metalness m) (Some x)
     (opacity m) (transparent m) (side m) (needsUpdate m).

Definition set_opacity (m : t) (x : R) : t :=
  mk (name m) (map m) (normalMap m) (roughnessMap m) (metalnessMap m)
     (aoMap m) (emissiveMap m) (color m) (emissive m) (metalness m)
     (roughness m) x (transparent m) (side m) (needsUpdate m).

Definition set_transparent (m : t) (b : bool) : t :=
  mk (name m) (map m) (normalMap m) (roughnessMap m) (metalnessMap m)
     (aoMap m) (emissiveMap m) (color m) (emissive m) (metalness m)
     (roughness m) (opacity m) b (side m) (needsUpdate m).

Definition set_side (m : t) (s : Z) : t :=
  mk (name m) (map m) (normalMap m) (roughnessMap m) (metalnessMap m)
     (aoMap m) (emissiveMap m) (color m) (emissive m) (metalness m)
     (roughness m) (opacity m) (transparent m) s (needsUpdate m).

Definition set_needsUpdate (m : t) (b : bool) : t :=
  mk (name m) (map m) (normalMap m) (roughnessMap m) (metalnessMap m)
     (aoMap m) (emissiveMap m) (color m) (emissive m) (metalness m)
     (roughness m) (opacity m) (transparent m) (side m) b.

(** [material.color.setHex(hex)]: a TypeError ([None]) without a color. *)
Definition color_setHex (m : t) (hex : Z) : option t :=
  match color m with
  | Some c => Some (set_color m (Some (setHex c hex)))
  | None => None
  end.

(** [material.emissive.setHex(hex)]: a TypeError ([None]) on a material
    that has no [emissive]. *)
Definition emissive_setHex (m : t) (hex : Z) : option t :=
  match emissive m with
  | Some _ => Some (set_emissive m (Some hex))
  | None => None
  end.

End Material.

Inductive MaterialSlot : Type :=
| NoMaterial
| Single (m : Material.t)
| Multi (ms : list Material.t).

Inductive Geometry : Type :=
| BoxGeometry (w h d : R)
| BufferGeometry (positionCount : option Z).

(** [geometry.attributes.position.count] when every link of the chain
    [child.geometry && child.geometry.attributes &&
     child.geometry.attributes.position] is there.  A box has 24 vertices. *)
Definition positionCount (g : option Geometry) : option Z :=
  match g with
  | None => None
  | Some (BoxGeometry _ _ _) => Some 24%Z
  | Some (BufferGeometry c) => c
  end.

Record Vec3 : Type := vec3 { vx : jsnum; vy : jsnum; vz : jsnum }.

Definition vec3R (x y z : R) : Vec3 := vec3 (Num x) (Num y) (Num z).

Inductive Kind : Type := MeshK | GroupK | LightK.

Inductive Object3D : Type := Obj {
  kind : Kind;
  oname : string;
  material : MaterialSlot;
  geometry : option Geometry;
  position : Vec3;
  rotation : Vec3;
  scale : Vec3;
  castShadow : bool;
  receiveShadow : bool;
  children : list Object3D
}.

Definition isMesh (o : Object3D) : bool :=
  match kind o with MeshK => true | _ => false end.

(** [child.material] is truthy: any material object, any array. *)
Definition hasMaterial (o : Object3D) : bool :=
  match material o with NoMaterial => false | _ => true end.

Definition set_material (o : Object3D) (m : MaterialSlot) : Object3D :=
  Obj (kind o) (oname o) m (geometry o) (position o) (rotation o) (scale o)
      (castShadow o) (receiveShadow o) (children o).

Definition set_shadows (o : Object3D) (c r : bool) : Object3D :=
  Obj (kind o) (oname o) (material o) (geometry o) (position o) (rotation o)
      (scale o) c r (children o).

Definition set_position (o : Object3D) (p : Vec3) : Object3D :=
  Obj (kind o) (oname o) (material o) (geometry o) p (rotation o) (scale o)
      (castShadow o) (receiveShadow o) (children o).

Definition set_rotation (o : Object3D) (r : Vec3) : Object3D :=
  Obj (kind o) (oname o) (material o) (geometry o) (position o) r (scale o)
      (castShadow o) (receiveShadow o) (children o).

Definition set_scale (o : Object3D) (s : Vec3) : Object3D :=
  Obj (kind o) (oname o) (material o) (geometry o) (position o) (rotation o) s
      (castShadow o) (receiveShadow o) (children o).

Definition set_children (o : Object3D) (cs : list Object3D) : Object3D :=
  Obj (kind o) (oname o) (material o) (geometry o) (position o) (rotation o)
      (scale o) (castShadow o) (receiveShadow o) cs.

Definition zero3 : Vec3 := vec3R 0 0 0.
Definition one3 : Vec3 := vec3R 1 1 1.

(** [new Mesh(geometry, material)]; without a material three.js gives the
    mesh a MeshBasicMaterial. *)
Definition Mesh (g : Geometry) (m : option Material.t) : Object3D :=
  Obj MeshK EmptyString (Single (match m with Some m => m
                                   | None => Material.MeshBasicMaterial end))
      (Some g) zero3 zero3 one3 false false [].

(** [new Group()] *)
Definition Group : Object3D :=
  Obj GroupK EmptyString NoMaterial None zero3 zero3 one3 false false [].

(** [parent.add(child)] *)
Definition add (parent child : Object3D) : Object3D :=
  set_children parent (children parent ++ [child]).

(** [root.traverse(callback)]: the callback runs on the object, then the
    traversal goes into its children.  No callback of the program touches
    [children], so the children visited are those of the object. *)
Fixpoint traverse (callback : Object3D -> Object3D) (o : Object3D)
  : Object3D :=
  match o with
  | Obj _ _ _ _ _ _ _ _ _ cs =>
      set_children (callback o) (List.map (traverse callback) cs)
  end.

(** Every mesh below (and including) [o] satisfies [p]. *)
Fixpoint allMeshes (p : Object3D -> bool) (o : Object3D) : bool :=
  match o with
  | Obj _ _ _ _ _ _ _ _ _ cs =>
      (if isMesh o then p o else true) && forallb (allMeshes p) cs
  end.

(* ================================================================== *)
(** ** The loader: [createReactNativeCompatibleLoader] *)

Module Loader.

(** [Platform.OS === "web"] or not. *)
Inductive Platform : Type := Web | Mobile.

Definition isWeb (p : Platform) : bool :=
  match p with Web => true | Mobile => false end.

(** The result of a parse: [gltf.scene] may be missing. *)
Record GLTF : Type := { gltf_scene : option Object3D }.

(** What the parser of three.js does with the data it is given: it calls
    [onLoad] with a result, calls [onError], or throws.  It is a function
    of the data: parsing the same data again does the same. *)
Inductive ParseOutcome : Type :=
| Delivers (g : GLTF)
| Reports (err : string)
| Throws (err : string).

(** What the caller of [parse] observes. *)
Inductive ParseResult : Type :=
| OnLoad (g : GLTF)
| OnError (err : string)
| Raised (err : string).

Definition originalParse (data : ParseOutcome) (onLoad : GLTF -> GLTF)
  : ParseResult :=
  match data with
  | Delivers g => OnLoad (onLoad g)
  | Reports e => OnError e
  | Throws e => Raised e
  end.

(** Lines 74-83: every texture map of a material is set to [null]. *)
Definition clearMaterial (m : Material.t) : Material.t :=
  Material.set_needsUpdate
    (Material.set_textures m None None None None None None) true.

(** Lines 70-84: the callback of [gltf.scene.traverse]. *)
Definition stripTextures (child : Object3D) : Object3D :=
  if isMesh child && hasMaterial child then
    match material child with
    | Multi ms => set_material child (Multi (List.map clearMaterial ms))
    | Single m => set_material child (Single (clearMaterial m))
    | NoMaterial => child
    end
  else child.

(** Lines 66-88: the success callback the wrapper passes to the parser;
    its result is what the caller's [onLoad] receives. *)
Definition wrappedOnLoad (gltf : GLTF) : GLTF :=
  match gltf_scene gltf with
  | Some scene => {| gltf_scene := Some (traverse stripTextures scene) |}
  | None => gltf
  end.

(** Lines 55-99: [parse] of the wrapper class.  When the parser throws,
    the original parse is tried again with the caller's own [onLoad]. *)
Definition ReactNativeGLTFLoader_parse (data : ParseOutcome) : ParseResult :=
  match originalParse data wrappedOnLoad with
  | Raised _ => originalParse data (fun g => g)
  | r => r
  end.

Inductive LoaderClass : Type := GLTFLoader | ReactNativeGLTFLoader.

(** Lines 43-104.  [available] is [GLTFLoader != null]; the result is
    [None] when the function returns the null [GLTFLoader]. *)
Definition createReactNativeCompatibleLoader (os : Platform)
    (available : bool) : option LoaderClass :=
  if isWeb os || negb available then
    (if available then Some GLTFLoader else None)
  else Some ReactNativeGLTFLoader.

Definition parse (cls : LoaderClass) (data : ParseOutcome) : ParseResult :=
  match cls with
  | GLTFLoader => originalParse data (fun g => g)
  | ReactNativeGLTFLoader => ReactNativeGLTFLoader_parse data
  end.

(** What [loader.load(uri, onLoad, onProgress, onError)] fetches. *)
Inductive Fetch : Type :=
| FetchFails (err : string)
| Fetched (data : ParseOutcome).

(** Which of the two callbacks of [load] is called, and with what.
    [GLTFLoader.load] of three.js parses inside a [try] and hands an
    exception of [parse] to [onError]. *)
Inductive LoadResult : Type :=
| Loaded (g : GLTF)
| Failed (err : string).

Definition load (cls : LoaderClass) (f : Fetch) : LoadResult :=
  match f with
  | FetchFails e => Failed e
  | Fetched data =>
      match parse cls data with
      | OnLoad g => Loaded g
      | OnError e | Raised e => Failed e
      end
  end.

End Loader.
Export Loader.

(* ================================================================== *)
(** ** The material classification pass of [loadMotorcycleModel] *)

Module Classifier.

Open Scope string_scope.

Inductive MaterialCategory : Type :=
| BodyPaint | Chrome | Rubber | Glass | Light | Seat | AccentDetail
| CarbonFiber | Default.

Definition allCategories : list MaterialCategory :=
  [BodyPaint; Chrome; Rubber; Glass; Light; Seat; AccentDetail; CarbonFiber;
   Default].

(** Lines 853-856: the geometry test of the first branch. *)
Definition largeMesh (count : option Z) : bool :=
  match count with
  | Some n => (5000 <? n)%Z
  | None => false
  end.

(** The keyword tests of lines 844-959, branch by branch; in each, the
    first list is tested on the material name and the second on the mesh
    name, both lower-cased. *)
Definition bodyKeyword (materialName meshName : string) : bool :=
  anyIncludes materialName ["body"; "fairing"; "tank"]
  || anyIncludes meshName ["body"; "fairing"; "tank"; "paint"].

Definition chromeKeyword (materialName meshName : string) : bool :=
  anyIncludes materialName ["metal"; "chrome"]
  || anyIncludes meshName ["metal"; "chrome"; "silver"; "exhaust"].

Definition rubberKeyword (materialName meshName : string) : bool :=
  anyIncludes materialName ["rubber"; "tire"]
  || anyIncludes meshName ["tire"; "wheel"; "rubber"].

Definition glassKeyword (materialName meshName : string) : bool :=
  anyIncludes materialName ["glass"; "window"; "screen"; "visor"]
  || anyIncludes meshName ["glass"; "window"; "screen"; "visor"].

Definition lightKeyword (materialName meshName : string) : bool :=
  anyIncludes materialName ["light"; "headlight"; "taillight"]
  || anyIncludes meshName ["light"; "lamp"; "led"].

Definition seatKeyword (materialName meshName : string) : bool :=
  anyIncludes materialName ["seat"]
  || anyIncludes meshName ["seat"; "saddle"].

Definition accentKeyword (materialName meshName : string) : bool :=
  anyIncludes materialName ["accent"; "detail"; "stripe"; "logo"]
  || anyIncludes meshName ["accent"; "detail"; "stripe"; "logo"; "badge"].

Definition carbonKeyword (materialName meshName : string) : bool :=
  anyIncludes materialName ["carbon"]
  || anyIncludes meshName ["carbon"; "fiber"].

(** Lines 844-966: the branch of the [if]/[else if] chain that is taken. *)
Definition classify (materialName meshName : string) (count : option Z)
  : MaterialCategory :=
  if bodyKeyword materialName meshName || largeMesh count then BodyPaint
  else if chromeKeyword materialName meshName then Chrome
  else if rubberKeyword materialName meshName then Rubber
  else if glassKeyword materialName meshName then Glass
  else if lightKeyword materialName meshName then Light
  else if seatKeyword materialName meshName then Seat
  else if accentKeyword materialName meshName then AccentDetail
  else if carbonKeyword materialName meshName then CarbonFiber
  else Default.

(** Lines 835-836 and the chain: the category of a mesh with material
    name [materialName] and mesh name [meshName], as they are in the file. *)
Definition categoryOf (materialName meshName : string) (count : option Z)
  : MaterialCategory :=
  classify (toLowerCase materialName) (toLowerCase meshName) count.

(** [x <- e ;; k]: [e] throws ([None]) or goes on with its value. *)
Definition bind {A B : Type} (e : option A) (k : A -> option B) : option B :=
  match e with
  | Some a => k a
  | None => None
  end.

Notation "x <- e ;; k" := (bind e (fun x => k))
  (at level 61, e at next level, right associativity).

(** The body of the branch of each category. *)
Definition applyPreset (c : MaterialCategory) (m : Material.t)
  : option Material.t :=
  let set (metal rough : R) (m : Material.t) :=
    Material.set_roughness (Material.set_metalness m metal) rough in
  match c with
  | BodyPaint =>
      Material.emissive_setHex (set 0.85 0.15 m)%R 0x080808
  | Chrome =>
      m <- Material.color_setHex m 0xe0e0e0 ;;
      Material.emissive_setHex (set 0.95 0.02 m)%R 0x0a0a0a
  | Rubber =>
      m <- Material.color_setHex m 0x1a1a1a ;;
      Some (set 0.0 0.9 m)%R
  | Glass =>
      m <- Material.color_setHex m 0xd8e6f0 ;;
      let m := set 0.2 0.0 m in
      let m := Material.set_opacity m 0.3 in
      let m := Material.set_transparent m true in
      Material.emissive_setHex m 0x001122
  | Light =>
      m <- Material.color_setHex m 0xffffff ;;
      Material.emissive_setHex (set 0.0 0.1 m)%R 0x666666
  | Seat =>
      m <- Material.color_setHex m 0x222222 ;;
      Some (set 0.1 0.8 m)%R
  | AccentDetail =>
      m <- Material.color_setHex m 0xffffff ;;
      Material.emissive_setHex (set 0.6 0.2 m)%R 0x222222
  | CarbonFiber =>
      m <- Material.color_setHex m 0x1d1e20 ;;
      Some (set 0.4 0.3 m)%R
  | Default =>
      m <- Material.color_setHex m 0x7d7d7d ;;
      Some (set 0.5 0.4 m)%R
  end.

(** [if (material.slot) material.slot = null] *)
Definition clearIfSet (s : option Material.Texture)
  : option Material.Texture :=
  match s with
  | Some _ => None
  | None => s
  end.

(** Lines 803-969: the body of the [try]; [None] when it throws.  An
    array has no [clone] method, so [child.material.clone()] throws. *)
Definition processMaterial (os : Platform) (child : Object3D)
  : option Material.t :=
  match material child with
  | Single m =>
      let m :=
        if negb (isWeb os) then
          Material.set_textures m
            (clearIfSet (Material.map m)) (clearIfSet (Material.normalMap m))
            (clearIfSet (Material.roughnessMap m))
            (clearIfSet (Material.metalnessMap m))
            (clearIfSet (Material.aoMap m))
            (clearIfSet (Material.emissiveMap m))
        else m in
      let m :=
        match Material.color m with
        | None => Material.set_color m (Some Material.ColorStub)
        | Some _ => m
        end in
      let m := Material.set_needsUpdate m true in
      let m := Material.set_transparent m (Material.transparent m || false) in
      let m := Material.set_side m 2 in
      let category :=
        categoryOf (Material.name m) (oname child)
                   (positionCount (geometry child)) in
      m <- applyPreset category m ;;
      Some (Material.set_needsUpdate m true)
  | _ => None
  end.

(** The fallback material of the [catch] (lines 981-985). *)
Definition neutralGray : Material.t :=
  Material.MeshStandardMaterial 0x7d7d7d 0.4 0.5.

(** Lines 799-988: the callback of [model.traverse]. *)
Definition processChild (os : Platform) (child : Object3D) : Object3D :=
  if isMesh child && hasMaterial child then
    match processMaterial os child with
    | Some m => set_shadows (set_material child (Single m)) true true
    | None => set_material child (Single neutralGray)
    end
  else child.

End Classifier.
Export Classifier.

(* ================================================================== *)
(** ** The component: refs, state and handlers *)

Module Viewer.

Open Scope R_scope.

(** One entry of [evt.nativeEvent.touches]. *)
Record Touch : Type := { pageX : R; pageY : R }.

(** [gestureState]: the displacement accumulated since the touch began. *)
Record GestureState : Type := { dx : R; dy : R }.

(** [rotationRef.current] and [velocityRef.current] *)
Record XY : Type := { x : jsnum; y : jsnum }.

(** [pinchDataRef.current] *)
Record PinchData : Type := {
  initialDistance : option jsnum;
  initialZoom : option jsnum
}.

Definition noPinch : PinchData :=
  {| initialDistance := None; initialZoom := None |}.

(** The camera: where it is and the point of its last [lookAt]. *)
Record Camera : Type := { cam_position : Vec3; cam_target : Vec3 }.

(** What the application is built with: the platform, whether
    [require("three/examples/jsm/loaders/GLTFLoader")] succeeded, and the
    [autoRotate] prop. *)
Record Env : Type := {
  os : Platform;
  gltfLoader : bool;
  autoRotate : bool
}.

Record State : Type := {
  scene : list Object3D;          (* scene.children *)
  cameraRef : option Camera;
  bikeModelRef : option nat;      (* index in scene.children *)
  rotationRef : XY;
  zoomRef : jsnum;
  velocityRef : XY;
  pinchDataRef : PinchData;
  loading : bool;
  error : option string;
  modelLoaded : bool;
  renderScheduled : bool;         (* a requestAnimationFrame is pending *)
  frames : nat;                   (* calls of gl.endFrameEXP() so far *)
  mounted : bool
}.

(** Lines 321-336: the state of a component that has just been mounted. *)
Definition initialState : State :=
  {| scene := []; cameraRef := None; bikeModelRef := None;
     rotationRef := {| x := Num 0; y := Num 0 |};
     zoomRef := Num 2.0;
     velocityRef := {| x := Num 0; y := Num 0 |};
     pinchDataRef := noPinch;
     loading := true; error := None; modelLoaded := false;
     renderScheduled := false; frames := 0; mounted := true |}.

Definition set_scene (s : State) (v : list Object3D) : State :=
  Build_State v (cameraRef s) (bikeModelRef s) (rotationRef s) (zoomRef s)
    (velocityRef s) (pinchDataRef s) (loading s) (error s) (modelLoaded s)
    (renderScheduled s) (frames s) (mounted s).

Definition set_cameraRef (s : State) (v : option Camera) : State :=
  Build_State (scene s) v (bikeModelRef s) (rotationRef s) (zoomRef s)
    (velocityRef s) (pinchDataRef s) (loading s) (error s) (modelLoaded s)
    (renderScheduled s) (frames s) (mounted s).

Definition set_bikeModelRef (s : State) (v : option nat) : State :=
  Build_State (scene s) (cameraRef s) v (rotationRef s) (zoomRef s)
    (velocityRef s) (pinchDataRef s) (loading s) (error s) (modelLoaded s)
    (renderScheduled s) (frames s) (mounted s).

Definition set_rotationRef (s : State) (v : XY) : State :=
  Build_State (scene s) (cameraRef s) (bikeModelRef s) v (zoomRef s)
    (velocityRef s) (pinchDataRef s) (loading s) (error s) (modelLoaded s)
    (renderScheduled s) (frames s) (mounted s).

Definition set_zoomRef (s : State) (v : jsnum) : State :=
  Build_State (scene s) (cameraRef s) (bikeModelRef s) (rotationRef s) v
    (velocityRef s) (pinchDataRef s) (loading s) (error s) (modelLoaded s)
    (renderScheduled s) (frames s) (mounted s).

Definition set_velocityRef (s : State) (v : XY) : State :=
  Build_State (scene s) (cameraRef s) (bikeModelRef s) (rotationRef s)
    (zoomRef s) v (pinchDataRef s) (loading s) (error s) (modelLoaded s)
    (renderScheduled s) (frames s) (mounted s).

Definition set_pinchDataRef (s : State) (v : PinchData) : State :=
  Build_State (scene s) (cameraRef s) (bikeModelRef s) (rotationRef s)
    (zoomRef s) (velocityRef s) v (loading s) (error s) (modelLoaded s)
    (renderScheduled s) (frames s) (mounted s).

Definition setLoading (s : State) (v : bool) : State :=
  Build_State (scene s) (cameraRef s) (bikeModelRef s) (rotationRef s)
    (zoomRef s) (velocityRef s) (pinchDataRef s) v (error s) (modelLoaded s)
    (renderScheduled s) (frames s) (mounted s).

Definition setError (s : State) (v : string) : State :=
  Build_State (scene s) (cameraRef s) (bikeModelRef s) (rotationRef s)
    (zoomRef s) (velocityRef s) (pinchDataRef s) (loading s) (Some v)
    (modelLoaded s) (renderScheduled s) (frames s) (mounted s).

Definition setModelLoaded (s : State) (v : bool) : State :=
  Build_State (scene s) (cameraRef s) (bikeModelRef s) (rotationRef s)
    (zoomRef s) (velocityRef s) (pinchDataRef s) (loading s) (error s) v
    (renderScheduled s) (frames s) (mounted s).

Definition set_renderScheduled (s : State) (v : bool) : State :=
  Build_State (scene s) (cameraRef s) (bikeModelRef s) (rotationRef s)
    (zoomRef s) (velocityRef s) (pinchDataRef s) (loading s) (error s)
    (modelLoaded s) v (frames s) (mounted s).

Definition set_frames (s : State) (v : nat) : State :=
  Build_State (scene s) (cameraRef s) (bikeModelRef s) (rotationRef s)
    (zoomRef s) (velocityRef s) (pinchDataRef s) (loading s) (error s)
    (modelLoaded s) (renderScheduled s) v (mounted s).

Definition set_mounted (s : State) (v : bool) : State :=
  Build_State (scene s) (cameraRef s) (bikeModelRef s) (rotationRef s)
    (zoomRef s) (velocityRef s) (pinchDataRef s) (loading s) (error s)
    (modelLoaded s) (renderScheduled s) (frames s) v.

(** [xs[i] = f(xs[i])], nothing when [i] is out of range. *)
Fixpoint updateAt (i : nat) (f : Object3D -> Object3D) (xs : list Object3D)
  : list Object3D :=
  match xs, i with
  | [], _ => []
  | o :: xs', O => f o :: xs'
  | o :: xs', S i' => o :: updateAt i' f xs'
  end.

(** [bikeModelRef.current], the object the ref points to. *)
Definition bikeModel (s : State) : option Object3D :=
  match bikeModelRef s with
  | Some i => nth_error (scene s) i
  | None => None
  end.

(** A mutation of [bikeModelRef.current]. *)
Definition updateBikeModel (f : Object3D -> Object3D) (s : State) : State :=
  match bikeModelRef s with
  | Some i => set_scene s (updateAt i f (scene s))
  | None => s
  end.

(** [scene.add(o)]; the result is the state and the index of [o]. *)
Definition sceneAdd (s : State) (o : Object3D) : State * nat :=
  (set_scene s (scene s ++ [o]), List.length (scene s)).

Definition set_rotation_x (v : jsnum) (o : Object3D) : Object3D :=
  set_rotation o (vec3 v (vy (rotation o)) (vz (rotation o))).

Definition set_rotation_y (v : jsnum) (o : Object3D) : Object3D :=
  set_rotation o (vec3 (vx (rotation o)) v (vz (rotation o))).

Definition set_position_y (v : jsnum) (o : Object3D) : Object3D :=
  set_position o (vec3 (vx (position o)) v (vz (position o))).

(* ------------------------------------------------------------------ *)
(** *** The pan responder (lines 404-496) *)

(** Lines 411-421 *)
Definition onPanResponderGrant (s : State) : State :=
  let s :=
    match bikeModel s with
    | Some model =>
        set_rotationRef s {| x := vx (rotation model);
                             y := vy (rotation model) |}
    | None => s
    end in
  let s := set_velocityRef s {| x := Num 0; y := Num 0 |} in
  set_pinchDataRef s noPinch.

Definition sensitivity : R := 0.0004.

(** Lines 427-451: the single touch branch. *)
Definition rotateModel (gestureState : GestureState) (s : State) : State :=
  let deltaY := jmul (Num (dx gestureState)) (Num sensitivity) in
  let deltaX :=
    jmul (Num (dy gestureState)) (jsub (Num sensitivity) (Num 0.0003)) in
  let s := set_velocityRef s {| x := deltaX; y := deltaY |} in
  let s := set_rotationRef s {| x := x (rotationRef s);
                                y := jadd (y (rotationRef s)) deltaY |} in
  let s := set_rotationRef s {| x := jadd (x (rotationRef s)) deltaX;
                                y := y (rotationRef s) |} in
  let s :=
    set_rotationRef s
      {| x := Math_max (Num (- PI / 3))
                       (Math_min (Num (PI / 3)) (x (rotationRef s)));
         y := y (rotationRef s) |} in
  let s := updateBikeModel (set_rotation_y (y (rotationRef s))) s in
  updateBikeModel (set_rotation_x (x (rotationRef s))) s.

(** Lines 454-486: the two touch branch. *)
Definition pinchZoom (touch1 touch2 : Touch) (camera : Camera) (s : State)
  : State :=
  let distance :=
    Num (hypot (pageX touch2 - pageX touch1) (pageY touch2 - pageY touch1)) in
  let s :=
    if negb (truthy (initialDistance (pinchDataRef s))) then
      set_pinchDataRef s {| initialDistance := Some distance;
                            initialZoom := Some (zoomRef s) |}
    else s in
  let zoomFactor :=
    jdiv (orNaN (initialDistance (pinchDataRef s))) distance in
  let newZoom := jmul (orNaN (initialZoom (pinchDataRef s))) zoomFactor in
  let s := set_zoomRef s (Math_max (Num 0.5) (Math_min (Num 12) newZoom)) in
  let camera :=
    {| cam_position :=
         vec3 (Num 1.0) (Num 0.75)
              (jdiv (jmul (Num 4.0) (zoomRef s)) (Num 2.0));
       cam_target := cam_target camera |} in
  let camera :=
    {| cam_position := cam_position camera;
       cam_target := vec3R 1.0 (-0.3) 0 |} in
  set_cameraRef s (Some camera).

(** Lines 423-487 *)
Definition onPanResponderMove (touches : list Touch)
    (gestureState : GestureState) (s : State) : State :=
  match touches, bikeModel s, cameraRef s with
  | [_], Some _, _ => rotateModel gestureState s
  | [touch1; touch2], _, Some camera => pinchZoom touch1 touch2 camera s
  | _, _, _ => s
  end.

(** Lines 489-495 *)
Definition onPanResponderRelease (s : State) : State :=
  set_pinchDataRef s noPinch.

(* ------------------------------------------------------------------ *)
(** *** The fallback model (lines 1047-1094) *)

(** [new MeshStandardMaterial({ color })]: roughness 1, metalness 0. *)
Definition coloured (c : Z) : Material.t :=
  Material.MeshStandardMaterial c 1 0.

Definition fallbackModel : Object3D :=
  let fallbackModel := Group in
  let body := Mesh (BoxGeometry 2 0.4 0.7) None in
  let body := set_position body (vec3R 0 0.5 0) in
  let seat := Mesh (BoxGeometry 1 0.2 0.5) (Some (coloured 0x222222)) in
  let seat := set_position seat (vec3R (-0.2) 0.7 0) in
  let frontWheel := Mesh (BoxGeometry 0.1 0.6 0.6) (Some (coloured 0x111111)) in
  let frontWheel := set_position frontWheel (vec3R 1.1 0.3 0) in
  let rearWheel := Mesh (BoxGeometry 0.1 0.6 0.6) (Some (coloured 0x111111)) in
  let rearWheel := set_position rearWheel (vec3R (-1.1) 0.3 0) in
  let fallbackModel := add fallbackModel body in
  let fallbackModel := add fallbackModel seat in
  let fallbackModel := add fallbackModel frontWheel in
  let fallbackModel := add fallbackModel rearWheel in
  let fallbackModel := set_position fallbackModel (vec3R 1.0 0 0) in
  let fallbackModel := set_rotation_y (Num (PI * 0.25)) fallbackModel in
  set_scale fallbackModel (vec3R 1.5 1.5 1.5).

Definition createFallbackModel (s : State) : State :=
  let (s, i) := sceneAdd s fallbackModel in
  set_bikeModelRef s (Some i).

(* ------------------------------------------------------------------ *)
(** *** [onContextCreate] (lines 498-671) *)

(** A light: no name, no material, no geometry. *)
Definition light (p : Vec3) (shadow : bool) : Object3D :=
  Obj LightK EmptyString NoMaterial None p zero3 one3 shadow false [].

(** Lines 368-401: ambient, hemisphere, main, front, back and fill light,
    in this order. *)
Definition setupLighting (s : State) : State :=
  let ambientLight := light zero3 false in
  let s := fst (sceneAdd s ambientLight) in
  let hemisphereLight := light (vec3R 0 1 0) false in
  let s := fst (sceneAdd s hemisphereLight) in
  let mainLight := light (vec3R 2 4 5) true in
  let s := fst (sceneAdd s mainLight) in
  let frontLight := light (vec3R (-3) 2 3) false in
  let s := fst (sceneAdd s frontLight) in
  let backLight := light (vec3R 0 3 (-5)) false in
  let s := fst (sceneAdd s backLight) in
  let fillLight := light (vec3R 0 (-1) 0) false in
  fst (sceneAdd s fillLight).

(** Lines 515-519: the camera as it is set up. *)
Definition setupCamera : Camera :=
  {| cam_position := vec3R 1.0 0.4 5.0; cam_target := vec3R 1.0 (-0.2) 0 |}.

(** Lines 502-522: the part of [onContextCreate] before the first
    [await]: renderer, scene, camera and lights. *)
Definition onContextCreate_setup (s : State) : State :=
  let s := set_scene s [] in
  let s := set_cameraRef s (Some setupCamera) in
  setupLighting s.

(** Lines 666-670: the renderer or the camera could not be built. *)
Definition onContextCreate_setupError (message : string) (s : State)
  : State :=
  let s := setError s ("GL setup error: " ++ message) in
  setLoading s false.

(** What the bounding box of the loaded model measures. *)
Record Box3 : Type := {
  centerX : R; centerY : R; centerZ : R;
  maxDim : R
}.

(** What happens to the attempt to load the asset: [Asset.loadAsync]
    rejects, or the loader fetches (and the model, if one comes, has the
    bounding box [box]). *)
Inductive LoadAttempt : Type :=
| AssetRejects (message : string)
| Fetches (f : Fetch) (box : Box3).

(** Lines 592-600 *)
Definition ensureColor (m : Material.t) : Material.t :=
  let m :=
    match Material.color m with
    | None => Material.set_color m (Some Material.ColorStub)
    | Some _ => m
    end in
  Material.set_needsUpdate m true.

(** Lines 584-603: the callback of [model.traverse]. *)
Definition prepareChild (child : Object3D) : Object3D :=
  if isMesh child && hasMaterial child then
    let child := set_shadows child true true in
    match material child with
    | Multi ms => set_material child (Multi (List.map ensureColor ms))
    | Single m => set_material child (Single (ensureColor m))
    | NoMaterial => child
    end
  else child.

(** Lines 534-639: the [try]; the error message when it throws. *)
Definition loadModel (env : Env) (a : LoadAttempt) (s : State)
  : string + State :=
  match createReactNativeCompatibleLoader (os env) (gltfLoader env) with
  | None => inl "GLTFLoader not available"%string
  | Some OptimizedGLTFLoader =>
      match a with
      | AssetRejects message => inl message
      | Fetches f box =>
          match load OptimizedGLTFLoader f with
          | Failed message => inl message
          | Loaded modelData =>
              match gltf_scene modelData with
              | None => inl "model.traverse is not a function"%string
              | Some model =>
                  let model := traverse prepareChild model in
                  let model := set_position model (vec3R 0 0 0) in
                  let model := set_scale model (vec3R 1 1 1) in
                  let (s, i) := sceneAdd s model in
                  let s := set_bikeModelRef s (Some i) in
                  (* position.sub(center) is overwritten at once *)
                  let s := updateBikeModel
                             (fun m => set_position m (vec3R 1.0 (-0.3) 0)) s in
                  let idealSize := Num 3.0 in
                  let scale := jdiv idealSize (Num (maxDim box)) in
                  let s := updateBikeModel
                             (set_rotation_y (Num (PI * 0.25))) s in
                  let s := updateBikeModel
                             (set_rotation_x (Num (PI * 0.05))) s in
                  let s := updateBikeModel
                             (fun m => set_scale m (vec3 scale scale scale)) s in
                  let s := setModelLoaded s true in
                  inr (setLoading s false)
              end
          end
      end
  end.

(** Lines 652-664: one run of the animation callback.  It asks for the
    next frame before anything else. *)
Definition render (env : Env) (s : State) : State :=
  let s := set_renderScheduled s true in
  let s :=
    match autoRotate env, bikeModel s with
    | true, Some _ =>
        updateBikeModel
          (fun m => set_rotation_y (jadd (vy (rotation m)) (Num 0.005)) m) s
    | _, _ => s
    end in
  set_frames s (S (frames s)).

(** Lines 533-665: the rest of [onContextCreate]. *)
Definition onContextCreate_load (env : Env) (a : LoadAttempt) (s : State)
  : State :=
  let s :=
    match loadModel env a s with
    | inr s => s
    | inl message =>
        let s := setError s ("Failed to load 3D model: " ++ message) in
        let s := setLoading s false in
        createFallbackModel s
    end in
  render env s.

Definition onContextCreate (env : Env) (a : LoadAttempt) (s : State)
  : State :=
  onContextCreate_load env a (onContextCreate_setup s).

(* ------------------------------------------------------------------ *)
(** *** [loadMotorcycleModel] (lines 673-1044) *)

(** Lines 694-749: what the resolution of the asset gives. *)
Inductive Resolution : Type :=
| ResolveThrows (message : string)
| ResolvesTo (modelUri : string).

(** What the loader does once it has a URI: its construction or [load]
    throws, or it fetches. *)
Inductive LoaderRun : Type :=
| LoaderThrows (message : string)
| Runs (f : Fetch) (box : Box3).

(** Lines 681-687 and 742-748: the one-box stand-in. *)
Definition oneBoxModel (s : State) : State :=
  let bikeGroup := Group in
  let bikeBody := Mesh (BoxGeometry 2 0.8 4) None in
  let bikeGroup := add bikeGroup bikeBody in
  let s := set_bikeModelRef s (Some (List.length (scene s))) in
  let s := fst (sceneAdd s bikeGroup) in
  setModelLoaded s true.

(** Lines 793-1021: the success callback of [loader.load]. *)
Definition onModelLoaded (env : Env) (gltf : GLTF) (box : Box3) (s : State)
  : State :=
  match gltf_scene gltf with
  | Some model =>
      let model := traverse (processChild (os env)) model in
      let model := set_position model (vec3R 0 0 0) in
      let model := set_scale model (vec3R 1 1 1) in
      let (s, i) := sceneAdd s model in
      let s := set_bikeModelRef s (Some i) in
      let s := updateBikeModel
                 (fun m => set_position m
                    (vec3R (0 - centerX box) (0 - centerY box)
                           (0 - centerZ box))) s in
      let s := updateBikeModel (set_position_y (Num 0.3)) s in
      let s := updateBikeModel (set_rotation_y (Num (PI * 0.15))) s in
      let s := updateBikeModel
                 (fun m => set_scale m (vec3R 1.5 1.5 1.5)) s in
      let s := setModelLoaded s true in
      setLoading s false
  | None =>
      let s := setError s "Error processing model: no scene" in
      let s := setLoading s false in
      createFallbackModel s
  end.

(** Lines 1030-1037: the error callback of [loader.load]. *)
Definition onModelError (message : string) (s : State) : State :=
  let s := setError s ("Error loading model: " ++ message) in
  let s := setLoading s false in
  createFallbackModel s.

(** Lines 1039-1043: the outer [catch]. *)
Definition onLoadThrown (message : string) (s : State) : State :=
  let s := setError s ("Error in model load: " ++ message) in
  setLoading s false.

Definition loadMotorcycleModel (env : Env) (r : Resolution) (l : LoaderRun)
    (s : State) : State :=
  if negb (gltfLoader env) then oneBoxModel s
  else
    match r with
    | ResolveThrows _ => oneBoxModel s
    | ResolvesTo EmptyString => oneBoxModel s
    | ResolvesTo _ =>
        match createReactNativeCompatibleLoader (os env) (gltfLoader env), l
        with
        | None, _ => onLoadThrown "LoaderClass is not a constructor" s
        | Some _, LoaderThrows message => onLoadThrown message s
        | Some LoaderClass, Runs f box =>
            match load LoaderClass f with
            | Loaded gltf => onModelLoaded env gltf box s
            | Failed message => onModelError message s
            end
        end
    end.

(* ------------------------------------------------------------------ *)
(** *** The component in its environment *)

(** What can happen to a mounted component.  [AnimationFrame] is the host
    running the callback given to [requestAnimationFrame], if one is
    pending.  [Unmount] is React removing the component: it runs the
    cleanups of the effects, and the one effect of the component (lines
    339-343) returns none. *)
Inductive Event : Type :=
| ContextCreated
| ContextFailed (message : string)
| LoadSettled (a : LoadAttempt)
| Grant
| Move (touches : list Touch) (gestureState : GestureState)
| Release
| AnimationFrame
| Unmount.

Definition animationFrame (env : Env) (s : State) : State :=
  if renderScheduled s then render env (set_renderScheduled s false)
  else s.

Definition step (env : Env) (s : State) (e : Event) : State :=
  match e with
  | ContextCreated => onContextCreate_setup s
  | ContextFailed message => onContextCreate_setupError message s
  | LoadSettled a => onContextCreate_load env a s
  | Grant => onPanResponderGrant s
  | Move touches gestureState => onPanResponderMove touches gestureState s
  | Release => onPanResponderRelease s
  | AnimationFrame => animationFrame env s
  | Unmount => set_mounted s false
  end.

Definition run (env : Env) (s : State) (es : list Event) : State :=
  fold_left (step env) es s.

End Viewer.
Export Viewer.

(* ================================================================== *)
(** ** The asset resolver of [loadMotorcycleModel] (lines 694-736) *)

Module Resolver.

Open Scope string_scope.

(** What [require("../assets/models/ducati_v4r.glb")] evaluates to. *)
Inductive RequiredAsset : Type :=
| AssetId (id : Z)
| AssetPath (path : string)
| AssetUnknown.

(** What [Asset.fromModule(requiredAsset)] does and holds: the download
    (or the construction) throws with a message, or the asset has its
    [localUri] and [uri], each of which may be null. *)
Record ModelAsset : Type := {
  failure : option string;
  localUri : option string;
  uri : option string
}.

(** Truthiness of a string that may be null: null and the empty string
    are falsy. *)
Definition nonEmpty (o : option string) : bool :=
  match o with
  | Some (String _ _) => true
  | _ => false
  end.

(** [a || b] *)
Definition orElse (a b : option string) : option string :=
  if nonEmpty a then a else b.

(** Lines 731-735: [if (!modelUri) throw new Error(...)]. *)
Definition checked (modelUri : option string) : Resolution :=
  match modelUri with
  | Some (String c u) => ResolvesTo (String c u)
  | _ =>
      ResolveThrows
        "Could not determine model URI - modelUri is null/undefined"
  end.

(** Lines 709-712 and 720-723 *)
Definition viaAssetModule (modelAsset : ModelAsset) : Resolution :=
  match failure modelAsset with
  | Some message => ResolveThrows message
  | None => checked (orElse (localUri modelAsset) (uri modelAsset))
  end.

(** Lines 694-736: the [try] that computes [modelUri]. *)
Definition resolveModelUri (os : Platform) (requiredAsset : RequiredAsset)
    (modelAsset : ModelAsset) : Resolution :=
  if negb (isWeb os) then
    match requiredAsset with
    | AssetId _ => viaAssetModule modelAsset
    | AssetPath path => checked (Some path)
    | AssetUnknown => viaAssetModule modelAsset
    end
  else checked (Some "./assets/models/ducati_v4r.glb").

End Resolver.
Export Resolver.

(* ================================================================== *)
(** ** The patches of three.js (lines 107-241) *)

Module Patches.

Open Scope string_scope.

(** The test of lines 143-149, 203-208 and 220-225. *)
Definition isImageUrl (url : string) : bool :=
  includes url ".jpg" || includes url ".png" || includes url ".jpeg"
  || includes url ".webp".

(** What a texture loader returns: the 1x1 white [DataTexture] of
    [createMobileCompatibleTexture], or a texture of the image at a URL. *)
Inductive TextureValue : Type :=
| WhitePixel
| ImageAt (url : string).

(** What a file loader hands to [onLoad] or [onError]. *)
Inductive FileValue : Type :=
| ArrayBuffer (bytes : list Z)
| FileError (message : string).

(** [global.Blob] *)
Inductive BlobClass : Type := NoBlob | NativeBlob | FakeBlob.

(** The part of three.js and of the global object that the patches
    replace. *)
Record Three : Type := {
  TextureLoader_load : string -> TextureValue;
  FileLoader_load : string -> FileValue;
  Blob : BlobClass
}.

(** Lines 107-180 *)
Definition patchThreeJSForMobile (os : Platform) (three : Three) : Three :=
  if negb (isWeb os) then
    let originalFileLoad := FileLoader_load three in
    {| TextureLoader_load := fun _ => WhitePixel;
       FileLoader_load :=
         fun url =>
           if negb (String.eqb url EmptyString) && isImageUrl url
           then ArrayBuffer []
           else originalFileLoad url;
       Blob := match Blob three with
               | NoBlob => FakeBlob
               | b => b
               end |}
  else three.

(** An error handler of a loading manager, as the list of the URLs it
    passes on to the handler of the application. *)
Definition ErrorHandler : Type := string -> list string.

(** Lines 197-211: the handler [GLTFLoader.prototype.load] installs
    over [manager.onError], which may be undefined. *)
Definition wrapOnError (originalOnError : option ErrorHandler)
  : ErrorHandler :=
  fun errorUrl =>
    if negb (includes errorUrl ".jpg") && negb (includes errorUrl ".png")
       && negb (includes errorUrl ".jpeg")
       && negb (includes errorUrl ".webp")
    then match originalOnError with
         | Some handler => handler errorUrl
         | None => []
         end
    else [].

(** Lines 215-231: [manager.getHandler] after the patch; a handler is
    its name, [None] is null. *)
Definition wrapGetHandler (originalGetHandler : string -> option string)
  : string -> option string :=
  fun file =>
    let handler := originalGetHandler file in
    match handler with
    | Some _ => if isImageUrl file then None else handler
    | None => handler
    end.

(** The manager of a loader. *)
Record Manager : Type := {
  onError : option ErrorHandler;
  getHandler : string -> option string
}.

(** Lines 188-234: what one call of the patched [load] does to the
    manager of the loader before it loads. *)
Definition patchedLoad_manager (manager : Manager) : Manager :=
  {| onError := Some (wrapOnError (onError manager));
     getHandler := wrapGetHandler (getHandler manager) |}.

End Patches.
Export Patches.

(* ================================================================== *)
(** ** Vocabulary of the properties *)

Module Props.

Open Scope string_scope.

(** Every keyword of the classification chain. *)
Definition keywords : list string :=
  ["body"; "fairing"; "tank"; "paint";
   "metal"; "chrome"; "silver"; "exhaust";
   "rubber"; "tire"; "wheel";
   "glass"; "window"; "screen"; "visor";
   "light"; "headlight"; "taillight"; "lamp"; "led";
   "seat"; "saddle";
   "accent"; "detail"; "stripe"; "logo"; "badge";
   "carbon"; "fiber"].

(** A name in which, once lower-cased, no keyword occurs. *)
Definition noKeyword (name : string) : bool :=
  negb (anyIncludes (toLowerCase name) keywords).

Definition subset (ks ks' : list string) : bool :=
  forallb (fun k => existsb (String.eqb k) ks') ks.

Open Scope R_scope.

(** The range the pitch is clamped to, and the range of the zoom. *)
Definition pitchRange (a : jsnum) : Prop := in_closed (- PI / 3) (PI / 3) a.
Definition zoomRange (a : jsnum) : Prop := in_closed 0.5 12 a.

(** The rotation of the model the ref points to. *)
Definition modelPitch (s : State) : option jsnum :=
  option_map (fun model => vx (rotation model)) (bikeModel s).
Definition modelYaw (s : State) : option jsnum :=
  option_map (fun model => vy (rotation model)) (bikeModel s).

(** A drag with one finger: the move events it delivers, each with the
    touch point and the displacement accumulated so far. *)
Definition drag (moves : list (Touch * GestureState)) : list Event :=
  List.map (fun m => Move [fst m] (snd m)) moves.

(** [dx_1 + ... + dx_n] over the move events of a drag. *)
Definition sumDx (moves : list (Touch * GestureState)) : R :=
  fold_right (fun m acc => dx (snd m) + acc) 0 moves.

(** What holds of the rotations in every state the component reaches. *)
Definition rotationOk (o : Object3D) : Prop :=
  pitchRange (vx (rotation o)) /\ finite (vy (rotation o)).

Definition rotationsOk (s : State) : Prop :=
  pitchRange (x (rotationRef s)) /\ finite (y (rotationRef s)) /\
  Forall rotationOk (scene s).

(** The texture slots of every material of a mesh are null. *)
Definition texturesCleared (o : Object3D) : bool :=
  match material o with
  | NoMaterial => true
  | Single m => Material.noTextures m
  | Multi ms => forallb Material.noTextures ms
  end.

(** A mesh made of a box. *)
Definition isBoxMesh (o : Object3D) : bool :=
  isMesh o &&
  match geometry o with
  | Some (BoxGeometry _ _ _) => true
  | _ => false
  end.

(** The scene holds [o] at the place the model ref points to. *)
Definition modelInScene (s : State) (o : Object3D) : Prop :=
  exists i, bikeModelRef s = Some i /\ nth_error (scene s) i = Some o.

(** What a move with one finger stores: the new yaw and the new pitch. *)
Definition movedYaw (g : GestureState) (s : State) : jsnum :=
  jadd (y (rotationRef s)) (Num (dx g * sensitivity)).

Definition movedPitch (g : GestureState) (s : State) : jsnum :=
  Math_max (Num (- PI / 3))
    (Math_min (Num (PI / 3))
       (jadd (x (rotationRef s)) (Num (dy g * (sensitivity - 0.0003))))).

(** The stored rotation and the rotation of the model agree. *)
Definition synced (s : State) : Prop :=
  modelPitch s = Some (x (rotationRef s)) /\
  modelYaw s = Some (y (rotationRef s)).

(** The data of a pinch in progress: a positive reference distance and a
    reference zoom in range. *)
Definition pinchOk (p : PinchData) : Prop :=
  match initialDistance p with
  | None => True
  | Some d =>
      exists d0 z0, d = Num d0 /\ 0 < d0 /\
                    initialZoom p = Some z0 /\ zoomRange z0
  end.

Definition zoomOk (s : State) : Prop :=
  zoomRange (zoomRef s) /\ pinchOk (pinchDataRef s).

Definition isGroup (o : Object3D) : bool :=
  match kind o with GroupK => true | _ => false end.

(** A group of at least four meshes, each a box. *)
Definition isFallbackGroup (o : Object3D) : bool :=
  isGroup o && (4 <=? List.length (children o))%nat
  && forallb isBoxMesh (children o).

(** The model the branch of a missing loader or asset puts in place. *)
Definition oneBox : Object3D := add Group (Mesh (BoxGeometry 2 0.8 4) None).

(** *** Concrete inputs *)

(** The application as [src/app/(tabs)/index.tsx] builds it on a phone. *)
Definition phone : Env :=
  {| os := Mobile; gltfLoader := true; autoRotate := true |}.

Definition finger : Touch := {| pageX := 180; pageY := 240 |}.

(** The GL context is created and the asset cannot be downloaded. *)
Definition offline : list Event :=
  [ContextCreated; LoadSettled (AssetRejects "Network request failed")].

(** A mesh of the scene graph with a colour texture, alone and in an
    array of materials. *)
Definition texturedMaterial : Material.t :=
  Material.mk "Body_Paint_01" (Some 7%nat) None None None None None
    (Some (Material.ColorHex 0xcc0000)) (Some 0%Z) (Some 1) (Some 1) 1
    false 0 false.

Definition texturedScene : Object3D :=
  add (add Group (Obj MeshK "Tank" (Single texturedMaterial)
                      (Some (BufferGeometry (Some 1200%Z)))
                      zero3 zero3 one3 false false []))
      (Obj MeshK "Wheel" (Multi [texturedMaterial; texturedMaterial])
           (Some (BufferGeometry (Some 900%Z)))
           zero3 zero3 one3 false false []).

(** The keywords the chain looks for in the material name. *)
Definition materialKeywords : list string :=
  ["body"; "fairing"; "tank"; "metal"; "chrome"; "rubber"; "tire";
   "glass"; "window"; "screen"; "visor"; "light"; "headlight"; "taillight";
   "seat"; "accent"; "detail"; "stripe"; "logo"; "carbon"]%string.

(** The branches that call [material.emissive.setHex]. *)
Definition setsEmissive (c : MaterialCategory) : bool :=
  match c with
  | BodyPaint | Chrome | Glass | Light | AccentDetail => true
  | Rubber | Seat | CarbonFiber | Default => false
  end.

(** The metalness and the roughness of each branch. *)
Definition presetMetalness (c : MaterialCategory) : R :=
  match c with
  | BodyPaint => 0.85 | Chrome => 0.95 | Rubber => 0.0 | Glass => 0.2
  | Light => 0.0 | Seat => 0.1 | AccentDetail => 0.6 | CarbonFiber => 0.4
  | Default => 0.5
  end.

Definition presetRoughness (c : MaterialCategory) : R :=
  match c with
  | BodyPaint => 0.15 | Chrome => 0.02 | Rubber => 0.9 | Glass => 0.0
  | Light => 0.1 | Seat => 0.8 | AccentDetail => 0.2 | CarbonFiber => 0.3
  | Default => 0.4
  end.

(** The colour each branch sets; the BodyPaint branch sets none. *)
Definition presetColor (c : MaterialCategory) : option Z :=
  match c with
  | BodyPaint => None
  | Chrome => Some 0xe0e0e0%Z | Rubber => Some 0x1a1a1a%Z
  | Glass => Some 0xd8e6f0%Z | Light => Some 0xffffff%Z
  | Seat => Some 0x222222%Z | AccentDetail => Some 0xffffff%Z
  | CarbonFiber => Some 0x1d1e20%Z | Default => Some 0x7d7d7d%Z
  end.

(** The category the classification pass finds for a mesh with one
    material. *)
Definition meshCategory (child : Object3D) (m : Material.t)
  : MaterialCategory :=
  categoryOf (Material.name m) (oname child) (positionCount (geometry child)).

(** A scene graph without its materials and shadow flags. *)
Fixpoint skeleton (o : Object3D) : Object3D :=
  match o with
  | Obj k n _ g p r sc _ _ cs =>
      Obj k n NoMaterial g p r sc false false (List.map skeleton cs)
  end.

(** A move event that is not a pinch with both fingers on one point. *)
Definition distinctTouches (e : Event) : Prop :=
  match e with
  | Move [touch1; touch2] _ =>
      hypot (pageX touch2 - pageX touch1) (pageY touch2 - pageY touch1) <> 0
  | _ => True
  end.

(** The move events of a pinch: the two touch points, frame by frame. *)
Definition pinch (g : GestureState) (frames : list (Touch * Touch))
  : list Event :=
  List.map (fun f => Move [fst f; snd f] g) frames.

Definition distance (f : Touch * Touch) : R :=
  hypot (pageX (snd f) - pageX (fst f)) (pageY (snd f) - pageY (fst f)).

(** The zoom a pinch stores: the clamp of lines 475. *)
Definition clampZoom (z : R) : R := Rmax 0.5 (Rmin 12 z).

Definition clampPitch (p : R) : R := Rmax (- PI / 3) (Rmin (PI / 3) p).

Definition isContextCreated (e : Event) : bool :=
  match e with ContextCreated => true | _ => false end.

(** A callback that touches only the material and the shadow flags. *)
Definition materialOnly (f : Object3D -> Object3D) : Prop :=
  forall o, exists m c r,
    f o = Obj (kind o) (oname o) m (geometry o) (position o) (rotation o)
              (scale o) c r (children o).

(** [f] applied [n] times. *)
Fixpoint iterate {A : Type} (n : nat) (f : A -> A) (a : A) : A :=
  match n with
  | O => a
  | S n' => f (iterate n' f a)
  end.

(** three.js before any patch, on a runtime without [Blob], with a
    network that is down. *)
Definition cdn : Three :=
  {| TextureLoader_load := ImageAt;
     FileLoader_load := fun url => FileError ("offline: " ++ url)%string;
     Blob := NoBlob |}.

End Props.
Export Props.

(* ================================================================== *)
(** ** The material classifier *)

Section ClassifierFacts.

Open Scope string_scope.

Lemma anyIncludes_false (s : string) (ks : list string) :
  anyIncludes s ks = false <-> forall k, In k ks -> includes s k = false.
Proof.
  unfold anyIncludes. induction ks as [|k ks IH]; simpl.
  - split; [intros _ k [] | reflexivity].
  - rewrite orb_false_iff, IH. split.
    + intros [Hk Hks] k' [<- | Hin]; auto.
    + intros H. split; [apply H; now left | intros k' Hin; apply H; now right].
Qed.

Lemma subset_In (ks ks' : list string) :
  subset ks ks' = true -> forall k, In k ks -> In k ks'.
Proof.
  unfold subset. rewrite forallb_forall. intros H k Hin.
  specialize (H k Hin). apply existsb_exists in H.
  destruct H as [k' [Hin' Heq]]. apply String.eqb_eq in Heq. now subst.
Qed.

(** None of the tests of the chain succeeds on a name without keyword. *)
Lemma noKeyword_anyIncludes (name : string) (ks : list string) :
  noKeyword name = true -> subset ks keywords = true ->
  anyIncludes (toLowerCase name) ks = false.
Proof.
  unfold noKeyword. rewrite negb_true_iff, anyIncludes_false.
  intros H Hsub. apply anyIncludes_false. intros k Hin.
  apply H. eapply subset_In; eauto.
Qed.

Lemma classify_large (materialName meshName : string) (n : Z) :
  (5000 < n)%Z -> classify materialName meshName (Some n) = BodyPaint.
Proof.
  intros H. unfold classify, largeMesh.
  apply Z.ltb_lt in H. rewrite H. now rewrite orb_true_r.
Qed.

Lemma classify_small (materialName meshName : string) (count : option Z) :
  largeMesh count = false ->
  classify materialName meshName count = classify materialName meshName None.
Proof.
  intros H. unfold classify. rewrite H. reflexivity.
Qed.

Lemma classify_BodyPaint (materialName meshName : string) (count : option Z) :
  classify materialName meshName count = BodyPaint <->
  bodyKeyword materialName meshName = true \/ largeMesh count = true.
Proof.
  unfold classify. rewrite <- orb_true_iff.
  destruct (bodyKeyword materialName meshName || largeMesh count).
  - tauto.
  - split; [|discriminate].
    repeat match goal with
           | |- context [if ?b then _ else _] => destruct b
           end; discriminate.
Qed.

Lemma classify_total (materialName meshName : string) (count : option Z) :
  In (classify materialName meshName count) allCategories.
Proof.
  destruct (classify materialName meshName count); simpl; tauto.
Qed.

Ltac no_keyword H :=
  unfold categoryOf, classify, bodyKeyword, chromeKeyword, rubberKeyword,
    glassKeyword, lightKeyword, seatKeyword, accentKeyword, carbonKeyword;
  rewrite ?(@noKeyword_anyIncludes _ _ H) by reflexivity.

(** *** C1 *)

(** The names of the claim with a tyre of 8000 vertices: the first
    branch takes it, by its geometry test. *)
Lemma front_tire_8000_is_body_paint :
  noKeyword "mat_07" = true /\
  categoryOf "mat_07" "Front_Tire" (Some 200%Z) = Rubber /\
  categoryOf "mat_07" "Front_Tire" (Some 8000%Z) = BodyPaint /\
  categoryOf "mat_07" "Front_Tire" (Some 8000%Z) <> Rubber.
Proof. repeat split; try reflexivity. discriminate. Qed.

(** C1 (amended): the chain assigns every pair of names and vertex count
    one category of the nine; "Body_Paint_01" on "chassis" is BodyPaint;
    a mesh "Front_Tire" whose material name has no keyword is Rubber when
    its vertex count is not above 5000 (or it has none); names without
    keyword with 8000 vertices are BodyPaint, with 200 vertices Default. *)
Theorem classifier_assigns_one_category :
  (forall materialName meshName count,
      In (categoryOf materialName meshName count) allCategories) /\
  (forall count, categoryOf "Body_Paint_01" "chassis" count = BodyPaint) /\
  (forall materialName count,
      noKeyword materialName = true -> largeMesh count = false ->
      categoryOf materialName "Front_Tire" count = Rubber) /\
  (forall materialName meshName,
      noKeyword materialName = true -> noKeyword meshName = true ->
      categoryOf materialName meshName (Some 8000%Z) = BodyPaint) /\
  (forall materialName meshName,
      noKeyword materialName = true -> noKeyword meshName = true ->
      categoryOf materialName meshName (Some 200%Z) = Default).
Proof.
  split; [|split; [|split; [|split]]].
  - intros. apply classify_total.
  - intros count. reflexivity.
  - intros materialName count H Hc. unfold categoryOf.
    rewrite (classify_small _ _ _ Hc). no_keyword H. reflexivity.
  - intros. apply classify_large. lia.
  - intros materialName meshName H H'. no_keyword H. no_keyword H'.
    reflexivity.
Qed.

Lemma classifier_assigns_one_category_witness :
  categoryOf "Akrapovic" "Front_Tire" (Some 1200%Z) = Rubber /\
  categoryOf "frame_01" "Swingarm" (Some 8000%Z) = BodyPaint /\
  categoryOf "frame_01" "Swingarm" (Some 200%Z) = Default.
Proof.
  destruct classifier_assigns_one_category as (_ & _ & Htire & Hbig & Hsmall).
  split; [|split].
  - apply Htire; reflexivity.
  - apply Hbig; reflexivity.
  - apply Hsmall; reflexivity.
Defined.

(** *** C2 *)

(** A tyre of 6000 vertices: its names say Rubber, the chain says
    BodyPaint. *)
Lemma large_tire_is_body_paint :
  bodyKeyword (toLowerCase "tyre_mat") (toLowerCase "Rear_Tire") = false /\
  rubberKeyword (toLowerCase "tyre_mat") (toLowerCase "Rear_Tire") = true /\
  categoryOf "tyre_mat" "Rear_Tire" None = Rubber /\
  categoryOf "tyre_mat" "Rear_Tire" (Some 6000%Z) = BodyPaint.
Proof. repeat split. Qed.

(** C2 (amended): the geometry test is one of the alternatives of the
    BodyPaint branch, the first of the chain.  A mesh of more than 5000
    vertices is BodyPaint whatever its names; BodyPaint is assigned
    exactly when a BodyPaint keyword matches or the vertex count exceeds
    5000; and the keywords of the later categories decide only for a mesh
    whose vertex count is not above 5000. *)
Theorem geometry_test_is_in_first_branch :
  (forall materialName meshName n,
      (5000 < n)%Z -> categoryOf materialName meshName (Some n) = BodyPaint) /\
  (forall materialName meshName count,
      categoryOf materialName meshName count = BodyPaint <->
      bodyKeyword (toLowerCase materialName) (toLowerCase meshName) = true
      \/ largeMesh count = true) /\
  (forall materialName meshName count,
      largeMesh count = false ->
      categoryOf materialName meshName count
      = categoryOf materialName meshName None).
Proof.
  split; [|split].
  - intros. now apply classify_large.
  - intros. apply classify_BodyPaint.
  - intros. now apply classify_small.
Qed.

Lemma geometry_test_is_in_first_branch_witness :
  categoryOf "chrome_pipe" "Exhaust" (Some 5001%Z) = BodyPaint /\
  categoryOf "chrome_pipe" "Exhaust" (Some 5000%Z)
  = categoryOf "chrome_pipe" "Exhaust" None.
Proof.
  destruct geometry_test_is_in_first_branch as (Hlarge & _ & Hsmall).
  split.
  - apply Hlarge. lia.
  - apply Hsmall. reflexivity.
Defined.

End ClassifierFacts.

(* ================================================================== *)
(** ** Lists of scene objects *)

Section ListFacts.

Variable P : Object3D -> Prop.

Lemma Forall_updateAt (f : Object3D -> Object3D) (i : nat)
    (xs : list Object3D) :
  (forall o, P o -> P (f o)) -> Forall P xs -> Forall P (updateAt i f xs).
Proof.
  intros Hf H. revert i.
  induction H as [|o xs Ho Hxs IH]; intros [|i]; simpl; constructor; auto.
Qed.

Lemma nth_error_updateAt (f : Object3D -> Object3D) (i : nat)
    (xs : list Object3D) :
  nth_error (updateAt i f xs) i = option_map f (nth_error xs i).
Proof.
  revert i. induction xs as [|o xs IH]; intros [|i]; simpl; auto.
Qed.

Lemma updateAt_last (f : Object3D -> Object3D) (xs : list Object3D)
    (o : Object3D) :
  updateAt (List.length xs) f (xs ++ [o])%list = (xs ++ [f o])%list.
Proof. induction xs as [|o' xs IH]; simpl; congruence. Qed.

Lemma nth_error_last (xs : list Object3D) (o : Object3D) :
  nth_error (xs ++ [o])%list (List.length xs) = Some o.
Proof. induction xs; simpl; auto. Qed.

Lemma Forall_nth_error (xs : list Object3D) (i : nat) (o : Object3D) :
  Forall P xs -> nth_error xs i = Some o -> P o.
Proof.
  intros H Hn. rewrite Forall_forall in H. apply H.
  eapply nth_error_In; eauto.
Qed.

End ListFacts.

(* ================================================================== *)
(** ** Rotation with one finger *)

Section Rotation.

Open Scope R_scope.

Variable env : Env.

Lemma pitchRange_clamp (a : jsnum) :
  finite a ->
  pitchRange (Math_max (Num (- PI / 3)) (Math_min (Num (PI / 3)) a)).
Proof.
  pose proof PI_RGT_0 as Hpi.
  destruct a as [r| | |]; simpl; try tauto; intros _.
  unfold Rmax, Rmin. repeat destruct Rle_dec; lra.
Qed.

Lemma clamp_in_range (a : jsnum) :
  pitchRange a ->
  Math_max (Num (- PI / 3)) (Math_min (Num (PI / 3)) a) = a.
Proof.
  destruct a as [r| | |]; simpl; try tauto; intros H.
  f_equal. unfold Rmax, Rmin. repeat destruct Rle_dec; lra.
Qed.

Lemma pitchRange_finite (a : jsnum) : pitchRange a -> finite a.
Proof. destruct a; simpl; tauto. Qed.

Lemma finite_jadd (a : jsnum) (r : R) : finite a -> finite (jadd a (Num r)).
Proof. destruct a; simpl; tauto. Qed.

Lemma rotationOk_set_y (v : jsnum) (o : Object3D) :
  finite v -> rotationOk o -> rotationOk (set_rotation_y v o).
Proof. intros Hv [Hx _]. split; assumption. Qed.

Lemma rotationOk_set_x (v : jsnum) (o : Object3D) :
  pitchRange v -> rotationOk o -> rotationOk (set_rotation_x v o).
Proof. intros Hv [_ Hy]. split; assumption. Qed.

Lemma rotationsOk_updateBikeModel (f : Object3D -> Object3D) (s : State) :
  (forall o, rotationOk o -> rotationOk (f o)) ->
  rotationsOk s -> rotationsOk (updateBikeModel f s).
Proof.
  intros Hf (Hx & Hy & Hs). unfold updateBikeModel.
  destruct (bikeModelRef s); [|repeat split; assumption].
  repeat split; try assumption. simpl. now apply Forall_updateAt.
Qed.

Lemma rotationsOk_sceneAdd (s : State) (o : Object3D) :
  rotationOk o -> rotationsOk s -> rotationsOk (fst (sceneAdd s o)).
Proof.
  intros Ho (Hx & Hy & Hs). repeat split; try assumption. simpl.
  apply Forall_app. split; [assumption | constructor; [assumption | constructor]].
Qed.

Lemma rotationOk_zero (o : Object3D) :
  rotation o = zero3 -> rotationOk o.
Proof.
  pose proof PI_RGT_0. intros H'. unfold rotationOk. rewrite H'. simpl.
  split; [lra | exact I].
Qed.

Lemma rotationOk_fallbackModel : rotationOk fallbackModel.
Proof. pose proof PI_RGT_0. split; simpl; [lra | exact I]. Qed.

Lemma rotationsOk_createFallbackModel (s : State) :
  rotationsOk s -> rotationsOk (createFallbackModel s).
Proof.
  intros H. unfold createFallbackModel.
  change (rotationsOk (fst (sceneAdd s fallbackModel))).
  apply rotationsOk_sceneAdd; [apply rotationOk_fallbackModel | exact H].
Qed.

Lemma rotationsOk_render (s : State) :
  rotationsOk s -> rotationsOk (render env s).
Proof.
  intros H. unfold render.
  assert (Hr : rotationsOk (set_renderScheduled s true)) by exact H.
  destruct (autoRotate env), (bikeModel (set_renderScheduled s true));
    try exact Hr.
  apply rotationsOk_updateBikeModel; [|exact Hr].
  intros m' Hm'. apply rotationOk_set_y; [|assumption].
  apply finite_jadd, Hm'.
Qed.

Lemma rotateModel_eq (g : GestureState) (s : State) :
  rotateModel g s
  = updateBikeModel (set_rotation_x (movedPitch g s))
      (updateBikeModel (set_rotation_y (movedYaw g s))
         (set_rotationRef
            (set_velocityRef s
               {| x := Num (dy g * (sensitivity - 0.0003));
                  y := Num (dx g * sensitivity) |})
            {| x := movedPitch g s; y := movedYaw g s |})).
Proof.
  unfold rotateModel, updateBikeModel. simpl.
  destruct (bikeModelRef s); reflexivity.
Qed.

Lemma rotationsOk_rotateModel (g : GestureState) (s : State) :
  rotationsOk s -> rotationsOk (rotateModel g s).
Proof.
  intros (Hx & Hy & Hs). rewrite rotateModel_eq.
  assert (Hp : pitchRange (movedPitch g s)).
  { apply pitchRange_clamp, finite_jadd. now apply pitchRange_finite. }
  assert (Hyaw : finite (movedYaw g s)) by (apply finite_jadd; exact Hy).
  apply rotationsOk_updateBikeModel.
  { intros o. now apply rotationOk_set_x. }
  apply rotationsOk_updateBikeModel.
  { intros o. now apply rotationOk_set_y. }
  repeat split; assumption.
Qed.

(** A pinch leaves the model and the stored rotation alone. *)
Lemma pinchZoom_frame (t1 t2 : Touch) (c : Camera) (s : State) :
  rotationRef (pinchZoom t1 t2 c s) = rotationRef s /\
  scene (pinchZoom t1 t2 c s) = scene s /\
  bikeModelRef (pinchZoom t1 t2 c s) = bikeModelRef s.
Proof.
  unfold pinchZoom.
  destruct (negb (truthy (initialDistance (pinchDataRef s)))); auto.
Qed.

Lemma rotationsOk_loadModel (a : LoadAttempt) (s s' : State) :
  rotationsOk s -> loadModel env a s = inr s' -> rotationsOk s'.
Proof.
  intros (Hx & Hy & Hs). unfold loadModel.
  destruct createReactNativeCompatibleLoader as [cls|]; [|discriminate].
  destruct a as [msg|f box]; [discriminate|].
  destruct (load cls f) as [g|msg]; [|discriminate].
  destruct (gltf_scene g) as [model|]; [|discriminate].
  intros [= <-]. pose proof PI_RGT_0.
  repeat split; try assumption.
  cbn. rewrite !updateAt_last. apply Forall_app. split; [assumption|].
  constructor; [|constructor]. split; simpl; [lra | exact I].
Qed.

Lemma rotationsOk_step (s : State) (e : Event) :
  rotationsOk s -> rotationsOk (step env s e).
Proof.
  intros H. destruct e as [|msg|a| |touches g| | |]; simpl.
  - destruct H as (Hx & Hy & _). repeat split; try assumption.
    cbn. repeat constructor; simpl; try lra;
      pose proof PI_RGT_0; lra.
  - exact H.
  - unfold onContextCreate_load. apply rotationsOk_render.
    destruct (loadModel env a s) as [msg|s'] eqn:E.
    + now apply rotationsOk_createFallbackModel.
    + eapply rotationsOk_loadModel; eauto.
  - unfold onPanResponderGrant.
    destruct (bikeModel s) as [m|] eqn:E; [|exact H].
    destruct H as (Hx & Hy & Hs).
    unfold bikeModel in E. destruct (bikeModelRef s); [|discriminate].
    destruct (Forall_nth_error rotationOk _ _ _ Hs E) as [Hmx Hmy].
    repeat split; assumption.
  - unfold onPanResponderMove.
    destruct touches as [|t1 [|t2 [|t3 ts]]]; try exact H.
    + destruct (bikeModel s); [|exact H]. now apply rotationsOk_rotateModel.
    + destruct (cameraRef s) as [c|]; [|exact H].
      destruct (pinchZoom_frame t1 t2 c s) as (Hr & Hsc & _).
      unfold rotationsOk. rewrite Hr, Hsc. exact H.
  - exact H.
  - unfold animationFrame. destruct (renderScheduled s); [|exact H].
    now apply rotationsOk_render.
  - exact H.
Qed.

Lemma rotationsOk_run (es : list Event) (s : State) :
  rotationsOk s -> rotationsOk (run env s es).
Proof.
  revert s. induction es as [|e es IH]; intros s H; simpl; [exact H|].
  apply IH. now apply rotationsOk_step.
Qed.

Lemma rotationsOk_initialState : rotationsOk initialState.
Proof.
  pose proof PI_RGT_0. repeat split; simpl; try lra. constructor.
Qed.


Lemma run_app (s : State) (es es' : list Event) :
  run env s (es ++ es')%list = run env (run env s es) es'.
Proof. apply fold_left_app. Qed.

Lemma bikeModel_updateBikeModel (f : Object3D -> Object3D) (s : State) :
  bikeModel (updateBikeModel f s) = option_map f (bikeModel s).
Proof.
  unfold bikeModel, updateBikeModel.
  destruct (bikeModelRef s) as [i|] eqn:E; simpl; rewrite E; [|reflexivity].
  apply nth_error_updateAt.
Qed.

Lemma bikeModel_rotateModel (g : GestureState) (s : State) :
  bikeModel (rotateModel g s)
  = option_map (fun m => set_rotation_x (movedPitch g s)
                           (set_rotation_y (movedYaw g s) m))
               (bikeModel s).
Proof.
  rewrite rotateModel_eq, !bikeModel_updateBikeModel.
  change (bikeModel (set_rotationRef _ _)) with (bikeModel s).
  now destruct (bikeModel s).
Qed.

Lemma rotationRef_updateBikeModel (f : Object3D -> Object3D) (s : State) :
  rotationRef (updateBikeModel f s) = rotationRef s.
Proof. unfold updateBikeModel. now destruct (bikeModelRef s). Qed.

Lemma rotationRef_rotateModel (g : GestureState) (s : State) :
  rotationRef (rotateModel g s)
  = {| x := movedPitch g s; y := movedYaw g s |}.
Proof. now rewrite rotateModel_eq, !rotationRef_updateBikeModel. Qed.

Lemma synced_move (t : Touch) (g : GestureState) (s : State) :
  bikeModel s <> None -> synced (step env s (Move [t] g)).
Proof.
  intros Hm. simpl. unfold onPanResponderMove.
  destruct (bikeModel s) as [m|] eqn:E; [|congruence].
  unfold synced, modelPitch, modelYaw.
  rewrite bikeModel_rotateModel, rotationRef_rotateModel, E. auto.
Qed.

Lemma bikeModel_move (t : Touch) (g : GestureState) (s : State) :
  bikeModel s <> None -> bikeModel (step env s (Move [t] g)) <> None.
Proof.
  intros Hm. simpl. unfold onPanResponderMove.
  destruct (bikeModel s) as [m|] eqn:E; [|congruence].
  rewrite bikeModel_rotateModel, E. discriminate.
Qed.

Lemma bikeModel_drag (moves : list (Touch * GestureState)) (s : State) :
  bikeModel s <> None -> bikeModel (run env s (drag moves)) <> None.
Proof.
  revert s. induction moves as [|[t g] moves IH]; intros s Hm; [exact Hm|].
  change (run env s (drag ((t, g) :: moves)))
    with (run env (step env s (Move [t] g)) (drag moves)).
  apply IH. exact (bikeModel_move t g s Hm).
Qed.

Lemma synced_drag (moves : list (Touch * GestureState)) (s : State) :
  bikeModel s <> None -> moves <> [] -> synced (run env s (drag moves)).
Proof.
  intros Hm Hne.
  destruct (exists_last Hne) as (moves' & [t g] & ->).
  unfold drag. rewrite map_app, run_app. simpl.
  apply (synced_move t g). now apply bikeModel_drag.
Qed.

(** C3: from a mounted component, after any events and then any drag
    with one finger, whatever the displacements, the stored pitch lies in
    [-PI/3, PI/3]; and when there is a model and the drag has delivered a
    move event, the [rotation.x] of the model is that stored pitch. *)
Theorem pitch_always_clamped (es : list Event)
    (moves : list (Touch * GestureState)) :
  let s0 := run env initialState es in
  let s' := run env s0 (drag moves) in
  pitchRange (x (rotationRef s')) /\
  (bikeModel s0 <> None -> moves <> [] ->
   modelPitch s' = Some (x (rotationRef s')) /\
   pitchRange (x (rotationRef s'))).
Proof.
  intros s0 s'.
  assert (H : rotationsOk s')
    by (apply rotationsOk_run, rotationsOk_run, rotationsOk_initialState).
  split; [apply H|]. intros Hm Hne. split; [|apply H].
  now apply synced_drag.
Qed.

(** A move with one finger on any state whose stored pitch is a number:
    the clamp alone puts the pitch in range. *)
Lemma pitch_clamped_by_move (t : Touch) (g : GestureState) (s : State) :
  bikeModel s <> None -> x (rotationRef s) <> NaN ->
  pitchRange (x (rotationRef (step env s (Move [t] g)))).
Proof.
  intros Hm Hx. simpl. unfold onPanResponderMove.
  destruct (bikeModel s) as [m|] eqn:E; [|congruence].
  rewrite rotationRef_rotateModel. simpl. unfold movedPitch.
  pose proof PI_RGT_0.
  destruct (x (rotationRef s)) as [r| | |]; simpl; try congruence;
    unfold Rmax, Rmin; repeat destruct Rle_dec; lra.
Qed.

Lemma grant_synced (s : State) :
  bikeModel s <> None -> synced (onPanResponderGrant s) /\
  bikeModel (onPanResponderGrant s) = bikeModel s.
Proof.
  intros Hm. unfold onPanResponderGrant.
  destruct (bikeModel s) as [m|] eqn:E; [|congruence].
  unfold synced, modelPitch, modelYaw.
  change (bikeModel (set_pinchDataRef _ _)) with (bikeModel s).
  rewrite E. auto.
Qed.

Lemma drag_yaw (moves : list (Touch * GestureState)) (s : State) (yaw : R) :
  bikeModel s <> None -> y (rotationRef s) = Num yaw ->
  y (rotationRef (run env s (drag moves)))
  = Num (yaw + 0.0004 * sumDx moves).
Proof.
  revert s yaw. induction moves as [|[t g] moves IH]; intros s yaw Hm Hy.
  - simpl. rewrite Hy. f_equal. lra.
  - change (run env s (drag ((t, g) :: moves)))
      with (run env (step env s (Move [t] g)) (drag moves)).
    rewrite (IH _ (yaw + dx g * 0.0004)).
    + f_equal. simpl. lra.
    + exact (bikeModel_move t g s Hm).
    + simpl. unfold onPanResponderMove.
      destruct (bikeModel s) as [m|] eqn:E; [|congruence].
      rewrite rotationRef_rotateModel. simpl. unfold movedYaw.
      rewrite Hy. reflexivity.
Qed.

Lemma sumDx_snoc (moves : list (Touch * GestureState))
    (m : Touch * GestureState) :
  sumDx (moves ++ [m])%list = sumDx moves + dx (snd m).
Proof. induction moves as [|m' moves IH]; simpl; [|rewrite IH]; lra. Qed.

(** C10: every move with one finger adds 0.0004 times the displacement
    accumulated since the start of the gesture.  So a drag that starts
    with the model at yaw [yaw] and delivers the displacements
    [dx_1 .. dx_n] ends with stored yaw and model yaw
    [yaw + 0.0004 * (dx_1 + ... + dx_n)], which is not
    [yaw + 0.0004 * dx_n] unless the earlier displacements sum to 0. *)
Theorem yaw_adds_every_cumulative_dx (s : State)
    (moves : list (Touch * GestureState)) (yaw : R) :
  modelYaw s = Some (Num yaw) ->
  let s' := run env s (Grant :: drag moves) in
  y (rotationRef s') = Num (yaw + 0.0004 * sumDx moves) /\
  modelYaw s' = Some (Num (yaw + 0.0004 * sumDx moves)) /\
  (forall earlier last,
      moves = (earlier ++ [last])%list -> sumDx earlier <> 0 ->
      modelYaw s' <> Some (Num (yaw + 0.0004 * dx (snd last)))).
Proof.
  intros Hyaw s'.
  assert (Hm : bikeModel s <> None).
  { unfold modelYaw in Hyaw. destruct (bikeModel s); discriminate. }
  destruct (grant_synced s Hm) as [[_ Hsy] Hb].
  assert (Hm' : bikeModel (onPanResponderGrant s) <> None) by now rewrite Hb.
  assert (Hy0 : y (rotationRef (onPanResponderGrant s)) = Num yaw).
  { unfold modelYaw in Hsy, Hyaw. rewrite Hb in Hsy. congruence. }
  assert (Hy : y (rotationRef s') = Num (yaw + 0.0004 * sumDx moves)).
  { apply (drag_yaw moves (onPanResponderGrant s) yaw Hm' Hy0). }
  assert (Hmy : modelYaw s' = Some (Num (yaw + 0.0004 * sumDx moves))).
  { destruct moves as [|m moves].
    - simpl. replace (yaw + 0.0004 * 0) with yaw by lra.
      change (modelYaw s') with (modelYaw (onPanResponderGrant s)).
      unfold modelYaw. rewrite Hb. exact Hyaw.
    - rewrite <- Hy.
      apply (synced_drag (m :: moves) (onPanResponderGrant s) Hm').
      discriminate. }
  split; [exact Hy|]. split; [exact Hmy|].
  intros earlier last -> Hne. rewrite Hmy, sumDx_snoc.
  intros [= Heq]. apply Hne. lra.
Qed.

Lemma model_rotationOk (s : State) (m : Object3D) :
  rotationsOk s -> bikeModel s = Some m -> rotationOk m.
Proof.
  intros (_ & _ & Hs) Hm. unfold bikeModel in Hm.
  destruct (bikeModelRef s); [|discriminate].
  eapply Forall_nth_error; eauto.
Qed.

(** C5 (amended): after any events, when there is a model, a gesture that
    delivers one move event with displacement (100, 0) adds exactly
    [100 * 0.0004] to the yaw the model had when the gesture started and
    leaves its pitch as it was. *)
Theorem one_move_drag (es : list Event) (t : Touch) :
  let s0 := run env initialState es in
  bikeModel s0 <> None ->
  exists pitch yaw : R,
    modelPitch s0 = Some (Num pitch) /\ modelYaw s0 = Some (Num yaw) /\
    let s' := run env s0 [Grant; Move [t] {| dx := 100; dy := 0 |}] in
    modelYaw s' = Some (Num (yaw + 100 * 0.0004)) /\
    modelPitch s' = Some (Num pitch).
Proof.
  intros s0 Hm.
  assert (Hok : rotationsOk s0)
    by apply rotationsOk_run, rotationsOk_initialState.
  clearbody s0.
  destruct (grant_synced s0 Hm) as [_ Hb].
  destruct (bikeModel s0) as [m|] eqn:E; [|congruence].
  destruct (model_rotationOk s0 m Hok E) as [Hp Hy].
  destruct (vx (rotation m)) as [pitch| | |] eqn:Ex; try contradiction.
  destruct (vy (rotation m)) as [yaw| | |] eqn:Ey; try contradiction.
  exists pitch, yaw. unfold modelPitch, modelYaw. rewrite E. simpl.
  rewrite Ex, Ey. split; [reflexivity|]. split; [reflexivity|].
  unfold onPanResponderMove. rewrite Hb.
  rewrite bikeModel_rotateModel, Hb. simpl.
  unfold movedYaw, movedPitch, onPanResponderGrant. rewrite E. simpl.
  rewrite Ex, Ey. simpl. split.
  - apply f_equal, f_equal. unfold sensitivity. lra.
  - apply f_equal, f_equal. simpl in Hp. unfold sensitivity, Rmax, Rmin.
    repeat destruct Rle_dec; lra.
Qed.

End Rotation.

(* ================================================================== *)
(** ** Pinch zoom, camera and render loop *)

Section Zoom.

Open Scope R_scope.

Variable env : Env.

Lemma hypot_same (a b : R) : hypot (a - a) (b - b) = 0.
Proof.
  unfold hypot. replace ((a - a) ^ 2 + (b - b) ^ 2) with 0 by ring.
  apply sqrt_0.
Qed.

Lemma hypot_nonneg (a b : R) : 0 <= hypot a b.
Proof. apply sqrt_pos. Qed.

Lemma jdiv_zero_zero : jdiv (Num 0) (Num 0) = NaN.
Proof.
  unfold jdiv, Rsign.
  destruct (Req_dec_T 0 0) as [_|H]; [|now elim H].
  destruct (Rlt_dec 0 0) as [H|_]; [lra|]. reflexivity.
Qed.

Lemma truthy_zero : truthy (Some (Num 0)) = false.
Proof. simpl. destruct (Req_dec_T 0 0) as [_|H]; [reflexivity | now elim H]. Qed.

(** What a pinch stores, frame by frame. *)
Lemma zoomRef_pinchZoom_first (t1 t2 : Touch) (c : Camera) (s : State) :
  truthy (initialDistance (pinchDataRef s)) = false ->
  let distance :=
    Num (hypot (pageX t2 - pageX t1) (pageY t2 - pageY t1)) in
  zoomRef (pinchZoom t1 t2 c s)
  = Math_max (Num 0.5)
      (Math_min (Num 12) (jmul (zoomRef s) (jdiv distance distance))).
Proof. intros H. unfold pinchZoom. rewrite H. reflexivity. Qed.

Lemma zoomRef_pinchZoom_next (t1 t2 : Touch) (c : Camera) (s : State) :
  truthy (initialDistance (pinchDataRef s)) = true ->
  let distance :=
    Num (hypot (pageX t2 - pageX t1) (pageY t2 - pageY t1)) in
  zoomRef (pinchZoom t1 t2 c s)
  = Math_max (Num 0.5)
      (Math_min (Num 12)
         (jmul (orNaN (initialZoom (pinchDataRef s)))
               (jdiv (orNaN (initialDistance (pinchDataRef s))) distance))).
Proof. intros H. unfold pinchZoom. rewrite H. reflexivity. Qed.

(** C4: two fingers on the same point in the first frame of a pinch.
    The distance is 0, it is recorded as the reference distance, the zoom
    factor is 0/0 and the zoom that is stored is NaN, which the clamp
    lets through: the zoom is outside [0.5, 12]. *)
Theorem coincident_touches_store_NaN (p : Touch) (g : GestureState) :
  let s := run env initialState [ContextCreated; Grant] in
  let s' := step env s (Move [p; p] g) in
  zoomRange (zoomRef s) /\ zoomRef s' = NaN /\ ~ zoomRange (zoomRef s').
Proof.
  intros s s'.
  assert (H : zoomRef s' = NaN).
  { change s' with (pinchZoom p p setupCamera s).
    rewrite zoomRef_pinchZoom_first by reflexivity.
    rewrite hypot_same, jdiv_zero_zero. reflexivity. }
  split; [cbn; lra|]. split; [exact H|]. rewrite H. simpl. tauto.
Qed.


Lemma zoomRange_clamp (a : jsnum) :
  a <> NaN -> zoomRange (Math_max (Num 0.5) (Math_min (Num 12) a)).
Proof.
  destruct a as [r| | |]; simpl; try congruence; intros _;
    unfold Rmax, Rmin; repeat destruct Rle_dec; lra.
Qed.

Lemma truthy_pos (d : R) : 0 < d -> truthy (Some (Num d)) = true.
Proof. intros H. simpl. destruct (Req_dec_T d 0); [lra | reflexivity]. Qed.

Lemma jdiv_pos (a d : R) : 0 < d -> jdiv (Num a) (Num d) = Num (a / d).
Proof. intros H. simpl. destruct (Req_dec_T d 0); [lra | reflexivity]. Qed.

Lemma jdiv_pos_zero (a : R) : 0 < a -> jdiv (Num a) (Num 0) = PosInf.
Proof.
  intros H. unfold jdiv, Rsign.
  destruct (Req_dec_T 0 0) as [_|H0]; [|now elim H0].
  destruct (Rlt_dec 0 a); [reflexivity | lra].
Qed.

Lemma jmul_pos_inf (a : R) : 0 < a -> jmul (Num a) PosInf = PosInf.
Proof.
  intros H. unfold jmul, Rsign. destruct (Rlt_dec 0 a); [reflexivity | lra].
Qed.

(** The zoom stays in range as long as the reference distance of a pinch
    is not recorded from two touches on the same point. *)
Lemma pinch_zoom_in_range (t1 t2 : Touch) (c : Camera) (s : State) :
  zoomOk s ->
  (initialDistance (pinchDataRef s) = None ->
   hypot (pageX t2 - pageX t1) (pageY t2 - pageY t1) <> 0) ->
  zoomOk (pinchZoom t1 t2 c s).
Proof.
  intros [Hz Hp] Hd. unfold pinchOk in Hp.
  set (d := hypot (pageX t2 - pageX t1) (pageY t2 - pageY t1)) in *.
  assert (Hd0 : 0 <= d) by apply hypot_nonneg.
  destruct (initialDistance (pinchDataRef s)) as [d1|] eqn:E.
  - destruct Hp as (d0 & z0 & -> & Hpos & Hz0 & Hr).
    assert (Ht : truthy (initialDistance (pinchDataRef s)) = true)
      by (rewrite E; now apply truthy_pos).
    split.
    + rewrite zoomRef_pinchZoom_next by exact Ht. fold d.
      rewrite E, Hz0. simpl orNaN. apply zoomRange_clamp.
      destruct z0 as [z| | |]; simpl in Hr; try contradiction.
      destruct (Req_dec_T d 0) as [->|Hne].
      * rewrite jdiv_pos_zero by exact Hpos.
        rewrite jmul_pos_inf by lra. discriminate.
      * rewrite jdiv_pos by lra. discriminate.
    + unfold pinchZoom. rewrite Ht. simpl. unfold pinchOk. rewrite E.
      exists d0, z0. auto.
  - assert (Hne : d <> 0) by now apply Hd.
    assert (Ht : truthy (initialDistance (pinchDataRef s)) = false)
      by now rewrite E.
    split.
    + rewrite zoomRef_pinchZoom_first by exact Ht. fold d.
      apply zoomRange_clamp. rewrite jdiv_pos by lra.
      destruct (zoomRef s); simpl in Hz; try contradiction. discriminate.
    + unfold pinchZoom. rewrite Ht. simpl. unfold pinchOk. simpl.
      fold d. exists d, (zoomRef s). repeat split; auto. lra.
Qed.

(** Where a pinch puts the camera. *)
Lemma cameraRef_pinchZoom (t1 t2 : Touch) (c : Camera) (s : State) :
  cameraRef (pinchZoom t1 t2 c s)
  = Some {| cam_position :=
              vec3 (Num 1.0) (Num 0.75)
                   (jdiv (jmul (Num 4.0) (zoomRef (pinchZoom t1 t2 c s)))
                         (Num 2.0));
            cam_target := vec3R 1.0 (-0.3) 0 |}.
Proof.
  unfold pinchZoom.
  destruct (negb (truthy (initialDistance (pinchDataRef s)))); reflexivity.
Qed.

(** C8: the first pinch after the camera is set up.  The camera was put
    at height 0.4 looking at (1, -0.2, 0); the pinch puts it at height
    0.75 looking at (1, -0.3, 0), whatever the two touches are. *)
Theorem first_pinch_moves_camera (t1 t2 : Touch) (g : GestureState) :
  let s := run env initialState [ContextCreated] in
  let s' := step env s (Move [t1; t2] g) in
  exists before after,
    cameraRef s = Some before /\ cameraRef s' = Some after /\
    vx (cam_position after) = vx (cam_position before) /\
    vy (cam_position before) = Num 0.4 /\
    vy (cam_position after) = Num 0.75 /\
    vy (cam_position after) <> vy (cam_position before) /\
    cam_target before = vec3R 1.0 (-0.2) 0 /\
    cam_target after = vec3R 1.0 (-0.3) 0 /\
    cam_target after <> cam_target before.
Proof.
  intros s s'.
  assert (Hs : cameraRef s = Some setupCamera) by reflexivity.
  assert (Hs' : cameraRef s' = cameraRef (pinchZoom t1 t2 setupCamera s))
    by reflexivity.
  rewrite cameraRef_pinchZoom in Hs'.
  generalize dependent (zoomRef (pinchZoom t1 t2 setupCamera s)).
  intros zoom Hs'. clearbody s'. clearbody s.
  eexists _, _. split; [exact Hs|]. split; [exact Hs'|].
  unfold setupCamera, vec3R. simpl. repeat split.
  - intros [= H]. lra.
  - intros [= H]. lra.
Qed.

Lemma renderScheduled_updateBikeModel (f : Object3D -> Object3D) (s : State) :
  renderScheduled (updateBikeModel f s) = renderScheduled s /\
  frames (updateBikeModel f s) = frames s /\
  mounted (updateBikeModel f s) = mounted s.
Proof. unfold updateBikeModel. destruct (bikeModelRef s); auto. Qed.

Lemma render_reschedules (s : State) :
  renderScheduled (render env s) = true /\
  frames (render env s) = S (frames s) /\
  mounted (render env s) = mounted s.
Proof.
  unfold render.
  destruct (autoRotate env), (bikeModel (set_renderScheduled s true));
    simpl; auto.
  unfold updateBikeModel. simpl. destruct (bikeModelRef s); auto.
Qed.

Lemma renderScheduled_rotateModel (g : GestureState) (s : State) :
  renderScheduled (rotateModel g s) = renderScheduled s.
Proof.
  rewrite rotateModel_eq.
  rewrite !(proj1 (renderScheduled_updateBikeModel _ _)). reflexivity.
Qed.

Lemma renderScheduled_step (s : State) (e : Event) :
  renderScheduled s = true -> renderScheduled (step env s e) = true.
Proof.
  intros H. destruct e as [|msg|a| |touches g| | |]; simpl; auto.
  - apply render_reschedules.
  - unfold onPanResponderGrant. now destruct (bikeModel s).
  - unfold onPanResponderMove.
    destruct touches as [|t1 [|t2 [|t3 ts]]]; auto.
    + destruct (bikeModel s); auto. now rewrite renderScheduled_rotateModel.
    + destruct (cameraRef s); auto. unfold pinchZoom.
      now destruct (negb (truthy (initialDistance (pinchDataRef s)))).
  - unfold animationFrame. rewrite H. apply render_reschedules.
Qed.

(** C9 (amended): the render callback asks for the next frame every time
    it runs, and nothing the component does on unmount (or on any other
    event) cancels the request: once the loop has started, a frame
    callback is pending after every sequence of events, unmount included,
    and the next animation frame runs it. *)
Theorem render_loop_is_never_cancelled (s : State) (es : list Event) :
  renderScheduled s = true ->
  let s' := run env s es in
  renderScheduled s' = true /\
  frames (step env s' AnimationFrame) = S (frames s') /\
  renderScheduled (step env s' AnimationFrame) = true.
Proof.
  intros H s'.
  assert (H' : renderScheduled s' = true).
  { subst s'. revert s H. induction es as [|e es IH]; intros s H; [exact H|].
    apply IH. now apply renderScheduled_step. }
  split; [exact H'|]. simpl. unfold animationFrame. rewrite H'.
  destruct (render_reschedules (set_renderScheduled s' false)) as (Hr & Hf & _).
  auto.
Qed.

End Zoom.

(* ================================================================== *)
(** ** Texture clearing and the fallback model *)

Section Textures.

(** Induction on a scene graph, with the hypothesis for every child. *)
Lemma Object3D_tree_ind (P : Object3D -> Prop) :
  (forall k n m g p r sc cs rs children,
      Forall P children -> P (Obj k n m g p r sc cs rs children)) ->
  forall o, P o.
Proof.
  intros H. fix IH 1. intros [k n m g p r sc cs rs children].
  apply H. induction children as [|c children IHc]; constructor.
  - apply IH.
  - exact IHc.
Qed.

Lemma isMesh_set_children (o : Object3D) (cs : list Object3D) :
  isMesh (set_children o cs) = isMesh o.
Proof. reflexivity. Qed.

Lemma texturesCleared_set_children (o : Object3D) (cs : list Object3D) :
  texturesCleared (set_children o cs) = texturesCleared o.
Proof. reflexivity. Qed.

Lemma allMeshes_unfold (p : Object3D -> bool) (o : Object3D) :
  allMeshes p o
  = (if isMesh o then p o else true) && forallb (allMeshes p) (children o).
Proof. now destruct o. Qed.

Lemma traverse_unfold (f : Object3D -> Object3D) (o : Object3D) :
  traverse f o = set_children (f o) (List.map (traverse f) (children o)).
Proof. now destruct o. Qed.

(** A callback that leaves every mesh without texture does so on the
    whole graph. *)
Lemma traverse_clears (f : Object3D -> Object3D) :
  (forall o, isMesh (f o) = true -> texturesCleared (f o) = true) ->
  forall o, allMeshes texturesCleared (traverse f o) = true.
Proof.
  intros Hf. induction o as [k n m g p r sc cs rs kids IH]
    using Object3D_tree_ind.
  rewrite traverse_unfold, allMeshes_unfold.
  rewrite isMesh_set_children, texturesCleared_set_children.
  apply andb_true_iff. split.
  - destruct (isMesh (f _)) eqn:E; [now apply Hf | reflexivity].
  - simpl children. rewrite forallb_forall. intros c Hc.
    apply in_map_iff in Hc. destruct Hc as (c0 & <- & Hc0).
    rewrite Forall_forall in IH. now apply IH.
Qed.

(** A callback that keeps the kind and the cleared materials of an
    object keeps a graph cleared. *)
Lemma traverse_keeps_cleared (f : Object3D -> Object3D) :
  (forall o, isMesh (f o) = isMesh o) ->
  (forall o, texturesCleared o = true -> texturesCleared (f o) = true) ->
  forall o, allMeshes texturesCleared o = true ->
            allMeshes texturesCleared (traverse f o) = true.
Proof.
  intros Hk Hf. induction o as [k n m g p r sc cs rs kids IH]
    using Object3D_tree_ind.
  rewrite traverse_unfold, !allMeshes_unfold.
  rewrite isMesh_set_children, texturesCleared_set_children, Hk.
  rewrite !andb_true_iff. intros [Ho Hcs]. split.
  - destruct (isMesh _); [now apply Hf | reflexivity].
  - simpl children in *. rewrite forallb_forall in *. intros c Hc.
    apply in_map_iff in Hc. destruct Hc as (c0 & <- & Hc0).
    rewrite Forall_forall in IH. apply IH; auto.
Qed.

Lemma noTextures_clearMaterial (m : Material.t) :
  Material.noTextures (clearMaterial m) = true.
Proof. reflexivity. Qed.

Lemma stripTextures_clears (o : Object3D) :
  isMesh (stripTextures o) = true -> texturesCleared (stripTextures o) = true.
Proof.
  unfold stripTextures.
  destruct (isMesh o) eqn:Em; simpl; [|congruence].
  unfold hasMaterial, texturesCleared.
  destruct (material o) as [|m|ms] eqn:E; simpl; intros _.
  - now rewrite E.
  - reflexivity.
  - rewrite forallb_forall. intros m Hm.
    apply in_map_iff in Hm. now destruct Hm as (m0 & <- & _).
Qed.

(** The branches of the chain do not touch the texture slots. *)
Lemma applyPreset_slots (c : MaterialCategory) (m m' : Material.t) :
  applyPreset c m = Some m' -> Material.slots m' = Material.slots m.
Proof.
  destruct c; unfold applyPreset, Classifier.bind, Material.color_setHex,
    Material.emissive_setHex; simpl;
    destruct (Material.color m); simpl; try discriminate;
    destruct (Material.emissive m); simpl; try discriminate;
    intros H; injection H as <-; reflexivity.
Qed.

Lemma processMaterial_clears (o : Object3D) (m : Material.t) :
  processMaterial Mobile o = Some m -> Material.noTextures m = true.
Proof.
  unfold processMaterial. destruct (material o) as [|m0|ms]; try discriminate.
  unfold Classifier.bind. simpl negb. cbv iota.
  match goal with
  | |- match applyPreset ?c ?m1 with _ => _ end = _ -> _ =>
      destruct (applyPreset c m1) as [m2|] eqn:E; [|discriminate]
  end.
  intros [= <-]. apply applyPreset_slots in E.
  unfold Material.noTextures. change (Material.slots (Material.set_needsUpdate m2 true))
    with (Material.slots m2). rewrite E.
  destruct m0 as [nm t1 t2 t3 t4 t5 t6 col em me ro op tr sd nu].
  destruct col, t1, t2, t3, t4, t5, t6; reflexivity.
Qed.

Lemma processChild_clears (o : Object3D) :
  isMesh (processChild Mobile o) = true ->
  texturesCleared (processChild Mobile o) = true.
Proof.
  unfold processChild.
  destruct (isMesh o) eqn:Em; simpl; [|congruence].
  unfold hasMaterial.
  destruct (material o) as [|m|ms] eqn:E; simpl; intros _.
  - unfold texturesCleared. now rewrite E.
  - destruct (processMaterial Mobile o) as [m'|] eqn:Ep; [|reflexivity].
    unfold texturesCleared. simpl. eapply processMaterial_clears; eauto.
  - destruct (processMaterial Mobile o) as [m'|] eqn:Ep; [|reflexivity].
    unfold texturesCleared. simpl. eapply processMaterial_clears; eauto.
Qed.

Lemma prepareChild_keeps (o : Object3D) :
  isMesh (prepareChild o) = isMesh o /\
  (texturesCleared o = true -> texturesCleared (prepareChild o) = true).
Proof.
  unfold prepareChild.
  destruct (isMesh o) eqn:Em; simpl; [|auto].
  unfold hasMaterial, texturesCleared.
  destruct (material o) as [|m|ms] eqn:E; simpl; rewrite ?E, ?Em; auto.
  - split; [exact Em|]. unfold ensureColor. destruct (Material.color m); auto.
  - split; [exact Em|]. rewrite !forallb_forall. intros H m Hm.
    apply in_map_iff in Hm. destruct Hm as (m0 & <- & Hm0).
    specialize (H m0 Hm0). unfold ensureColor.
    destruct (Material.color m0); auto.
Qed.

(** What the loader of the platform hands to the success callback. *)
Lemma mobile_loader_clears (f : Fetch) (gltf : GLTF) (scene : Object3D) :
  createReactNativeCompatibleLoader Mobile true = Some ReactNativeGLTFLoader /\
  (load ReactNativeGLTFLoader f = Loaded gltf ->
   gltf_scene gltf = Some scene ->
   allMeshes texturesCleared scene = true).
Proof.
  split; [reflexivity|].
  destruct f as [e|[g|e|e]]; simpl; try discriminate.
  unfold wrappedOnLoad. destruct (gltf_scene g) as [sc|] eqn:E.
  - intros [= <-]. simpl. intros [= <-].
    apply traverse_clears, stripTextures_clears.
  - intros [= <-]. congruence.
Qed.


(** C6, on the web: the loader is the plain GLTFLoader, and neither it
    nor the passes that follow take the textures away. *)
Lemma web_keeps_textures :
  let gltf := {| gltf_scene := Some texturedScene |} in
  createReactNativeCompatibleLoader Web true = Some GLTFLoader /\
  load GLTFLoader (Fetched (Delivers gltf)) = Loaded gltf /\
  allMeshes texturesCleared texturedScene = false /\
  allMeshes texturesCleared (traverse prepareChild texturedScene) = false /\
  allMeshes texturesCleared (traverse (processChild Web) texturedScene)
  = false.
Proof. repeat split. Qed.

(** C6 (amended): where the platform is not the web, the scene graph
    that the loader passes to the success callback has every texture
    slot of every material of every mesh null, arrays of materials
    included; it is still so after the pass of [onContextCreate] and
    after the classification pass of [loadMotorcycleModel]. *)
Theorem mobile_clears_every_texture (cls : LoaderClass) (f : Fetch)
    (gltf : GLTF) (scene : Object3D) :
  createReactNativeCompatibleLoader Mobile true = Some cls ->
  load cls f = Loaded gltf ->
  gltf_scene gltf = Some scene ->
  allMeshes texturesCleared scene = true /\
  allMeshes texturesCleared (traverse prepareChild scene) = true /\
  allMeshes texturesCleared (traverse (processChild Mobile) scene) = true.
Proof.
  intros [= <-] Hl Hs.
  assert (H : allMeshes texturesCleared scene = true)
    by (eapply mobile_loader_clears; eauto).
  split; [exact H|]. split.
  - apply traverse_keeps_cleared; [apply prepareChild_keeps | | exact H].
    intros o. apply prepareChild_keeps.
  - apply traverse_clears, processChild_clears.
Qed.

Lemma mobile_clears_every_texture_witness :
  allMeshes texturesCleared (traverse stripTextures texturedScene) = true /\
  allMeshes texturesCleared
    (traverse prepareChild (traverse stripTextures texturedScene)) = true /\
  allMeshes texturesCleared
    (traverse (processChild Mobile) (traverse stripTextures texturedScene))
  = true.
Proof.
  apply (mobile_clears_every_texture ReactNativeGLTFLoader
           (Fetched (Delivers {| gltf_scene := Some texturedScene |}))
           {| gltf_scene := Some (traverse stripTextures texturedScene) |});
    reflexivity.
Defined.

End Textures.

Section Fallback.

Open Scope R_scope.

Variable env : Env.

Lemma modelInScene_sceneAdd (s : State) (o : Object3D) :
  modelInScene
    (set_bikeModelRef (fst (sceneAdd s o)) (Some (snd (sceneAdd s o)))) o.
Proof.
  exists (List.length (scene s)). split; [reflexivity|].
  simpl. apply nth_error_last.
Qed.

Lemma modelInScene_createFallbackModel (s : State) :
  modelInScene (createFallbackModel s) fallbackModel.
Proof. apply modelInScene_sceneAdd. Qed.

Lemma modelInScene_updateBikeModel (f : Object3D -> Object3D) (s : State)
    (o : Object3D) :
  modelInScene s o -> modelInScene (updateBikeModel f s) (f o).
Proof.
  intros (i & Hi & Ho). exists i. unfold updateBikeModel. rewrite Hi.
  split; [exact Hi|]. simpl. now rewrite nth_error_updateAt, Ho.
Qed.

Lemma modelInScene_bikeModel (s : State) (o : Object3D) :
  modelInScene s o <-> bikeModel s = Some o.
Proof.
  unfold modelInScene, bikeModel. split.
  - intros (i & -> & Ho). exact Ho.
  - destruct (bikeModelRef s) as [i|]; [|discriminate]. eauto.
Qed.

(** The first run of the render callback turns the model, nothing else. *)
Lemma render_keeps_fallback (s : State) (o : Object3D) :
  modelInScene s o -> isFallbackGroup o = true ->
  loading (render env s) = loading s /\
  error (render env s) = error s /\
  exists o', modelInScene (render env s) o' /\ isFallbackGroup o' = true.
Proof.
  intros Hm Ho. unfold render.
  assert (Hm' : modelInScene (set_renderScheduled s true) o) by exact Hm.
  destruct (autoRotate env), (bikeModel (set_renderScheduled s true));
    try (repeat split; eauto; fail).
  match goal with
  | |- context [updateBikeModel ?f _] =>
      pose proof (modelInScene_updateBikeModel f _ _ Hm') as Hu
  end.
  unfold set_frames. simpl. unfold updateBikeModel in *. simpl in *.
  destruct (bikeModelRef s); simpl; repeat split; eauto.
Qed.

Lemma loadModel_loading (a : LoadAttempt) (s s' : State) :
  loadModel env a s = inr s' -> loading s' = false /\ bikeModel s' <> None.
Proof.
  unfold loadModel.
  destruct createReactNativeCompatibleLoader as [cls|]; [|discriminate].
  destruct a as [msg|f box]; [discriminate|].
  destruct (load cls f) as [g|msg]; [|discriminate].
  destruct (gltf_scene g) as [model|]; [|discriminate].
  intros [= <-]. split; [reflexivity|].
  unfold bikeModel. cbn. rewrite !updateAt_last, nth_error_last. discriminate.
Qed.

Lemma loading_render (s : State) : loading (render env s) = loading s.
Proof.
  unfold render.
  destruct (autoRotate env), (bikeModel (set_renderScheduled s true)); auto.
  unfold updateBikeModel. simpl. now destruct (bikeModelRef s).
Qed.

Lemma modelInScene_oneBoxModel (s : State) :
  modelInScene (oneBoxModel s) oneBox /\ loading (oneBoxModel s) = loading s.
Proof.
  split; [|reflexivity].
  exists (List.length (scene s)). split; [reflexivity|].
  simpl. apply nth_error_last.
Qed.

(** C7, in [loadMotorcycleModel]: the asset cannot be resolved.  The
    model is a group of one box and the component is still loading. *)
Lemma unresolved_asset_gets_one_box :
  let s' :=
    loadMotorcycleModel phone (ResolveThrows "asset not found")
      (Runs (FetchFails "unreachable") (Build_Box3 0 0 0 0)) initialState in
  exists o, modelInScene s' o /\ List.length (children o) = 1%nat /\
            isFallbackGroup o = false /\ loading s' = true.
Proof. exists oneBox. repeat split. exists 0%nat. split; reflexivity. Qed.

(** C7 (amended): the builder is total and makes a group of four box
    meshes, which it adds to the scene and makes the model.  In
    [onContextCreate], whenever loading fails (the [try] throws, for any
    reason) the handler sets the error, ends the loading state and the
    model is such a group; loading is over after every attempt.  In
    [loadMotorcycleModel], the error callback of the loader and a failure
    to process what it loaded do the same; when the loader is missing
    or the asset cannot be resolved, the model is a group of one box. *)
Theorem failure_handlers_install_fallback :
  (isFallbackGroup fallbackModel = true /\
   List.length (children fallbackModel) = 4%nat /\
   forall s, modelInScene (createFallbackModel s) fallbackModel) /\
  (forall a s message,
      loadModel env a s = inl message ->
      let s' := onContextCreate_load env a s in
      loading s' = false /\
      error s' = Some ("Failed to load 3D model: " ++ message)%string /\
      exists o, modelInScene s' o /\ isFallbackGroup o = true) /\
  (forall a s, loading (onContextCreate_load env a s) = false) /\
  (forall cls uri f box s,
      createReactNativeCompatibleLoader (os env) (gltfLoader env)
      = Some cls ->
      uri <> EmptyString ->
      (exists message, load cls f = Failed message) \/
      load cls f = Loaded {| gltf_scene := None |} ->
      let s' := loadMotorcycleModel env (ResolvesTo uri) (Runs f box) s in
      loading s' = false /\ error s' <> None /\
      modelInScene s' fallbackModel) /\
  (forall r l s,
      gltfLoader env = false \/ (exists message, r = ResolveThrows message)
      \/ r = ResolvesTo EmptyString ->
      modelInScene (loadMotorcycleModel env r l s) oneBox).
Proof.
  split; [|split; [|split; [|split]]].
  - split; [reflexivity|]. split; [reflexivity|].
    apply modelInScene_createFallbackModel.
  - intros a s message H s'. subst s'. unfold onContextCreate_load. rewrite H.
    match goal with
    | |- context [render env ?s0] =>
        destruct (render_keeps_fallback s0 fallbackModel) as (Hl & He & Ho);
          [apply modelInScene_createFallbackModel | reflexivity |]
    end.
    rewrite Hl, He. auto.
  - intros a s. unfold onContextCreate_load. rewrite loading_render.
    destruct (loadModel env a s) as [msg|s'] eqn:E; [reflexivity|].
    now apply loadModel_loading in E.
  - intros cls uri f box s Hcls Huri Hfail s'. subst s'.
    assert (Hav : gltfLoader env = true).
    { unfold createReactNativeCompatibleLoader in Hcls.
      destruct (gltfLoader env); [reflexivity|].
      rewrite orb_true_r in Hcls. discriminate. }
    unfold loadMotorcycleModel. rewrite Hav in *. simpl negb. cbv iota.
    destruct uri as [|c uri]; [congruence|]. rewrite Hcls.
    destruct Hfail as [[message ->] | ->].
    + split; [reflexivity|]. split; [discriminate|].
      apply modelInScene_createFallbackModel.
    + split; [reflexivity|]. split; [discriminate|].
      apply modelInScene_createFallbackModel.
  - intros r l s H. unfold loadMotorcycleModel.
    destruct (gltfLoader env); simpl negb; cbv iota;
      [|apply modelInScene_oneBoxModel].
    destruct H as [H | [[message ->] | ->]]; [discriminate| |];
      apply modelInScene_oneBoxModel.
Qed.

End Fallback.

(* ================================================================== *)
(** ** The theorems at work on concrete runs *)

Section Witnesses.

Open Scope R_scope.

(** C3 at work: the viewer is offline and shows the fallback model; one
    move of a million pixels downwards leaves the pitch at the bound. *)
Lemma pitch_always_clamped_witness :
  let moves := [(finger, {| dx := 0; dy := 1000000 |})] in
  let s' := run phone (run phone initialState offline) (drag moves) in
  modelPitch s' = Some (x (rotationRef s')) /\
  pitchRange (x (rotationRef s')).
Proof.
  intros moves s'.
  apply (proj2 (pitch_always_clamped phone offline moves)).
  - cbn. discriminate.
  - discriminate.
Defined.

(** C5 at work on the fallback model. *)
Lemma one_move_drag_witness :
  let s0 := run phone initialState offline in
  exists pitch yaw : R,
    modelPitch s0 = Some (Num pitch) /\ modelYaw s0 = Some (Num yaw) /\
    let s' := run phone s0 [Grant; Move [finger] {| dx := 100; dy := 0 |}] in
    modelYaw s' = Some (Num (yaw + 100 * 0.0004)) /\
    modelPitch s' = Some (Num pitch).
Proof.
  apply (one_move_drag phone offline finger). cbn. discriminate.
Defined.

(** C5: the same displacement of 100 delivered in two move events, of
    50 and of 100 pixels since the start: the yaw grows by 0.06. *)
Lemma drag_in_two_moves_adds_more :
  let s0 := run phone initialState offline in
  let s' :=
    run phone s0 [Grant; Move [finger] {| dx := 50; dy := 0 |};
                  Move [finger] {| dx := 100; dy := 0 |}] in
  exists yaw : R,
    modelYaw s0 = Some (Num yaw) /\
    modelYaw s' = Some (Num (yaw + 0.06)) /\
    modelYaw s' <> Some (Num (yaw + 100 * 0.0004)).
Proof.
  exists (PI * 0.25 + 0.005). cbn. unfold sensitivity. repeat split.
  - apply f_equal, f_equal. lra.
  - intros [= H]. lra.
Qed.

(** C10 at work: two move events, 50 and 100 pixels. *)
Lemma yaw_adds_every_cumulative_dx_witness :
  let s := run phone initialState offline in
  let moves := [(finger, {| dx := 50; dy := 0 |});
                (finger, {| dx := 100; dy := 0 |})] in
  let s' := run phone s (Grant :: drag moves) in
  let yaw := PI * 0.25 + 0.005 in
  y (rotationRef s') = Num (yaw + 0.0004 * sumDx moves) /\
  modelYaw s' = Some (Num (yaw + 0.0004 * sumDx moves)) /\
  modelYaw s' <> Some (Num (yaw + 0.0004 * 100)).
Proof.
  intros s moves s' yaw.
  destruct (yaw_adds_every_cumulative_dx phone s moves yaw) as (H1 & H2 & H3).
  - reflexivity.
  - split; [exact H1|]. split; [exact H2|].
    apply (H3 [(finger, {| dx := 50; dy := 0 |})]
              (finger, {| dx := 100; dy := 0 |})).
    + reflexivity.
    + simpl. lra.
Defined.

(** C9: the component is unmounted and the next animation frame still
    runs the render callback, which asks for one more. *)
Lemma render_runs_after_unmount :
  let s := run phone initialState (offline ++ [Unmount]) in
  let s' := step phone s AnimationFrame in
  mounted s = false /\ renderScheduled s = true /\
  frames s' = S (frames s) /\ mounted s' = false /\
  renderScheduled s' = true.
Proof. cbn. repeat split. Qed.

Lemma render_loop_is_never_cancelled_witness :
  let s := run phone initialState offline in
  let s' := run phone s [Unmount; AnimationFrame; AnimationFrame] in
  renderScheduled s' = true /\
  frames (step phone s' AnimationFrame) = S (frames s') /\
  renderScheduled (step phone s' AnimationFrame) = true.
Proof.
  apply (render_loop_is_never_cancelled phone
           (run phone initialState offline)
           [Unmount; AnimationFrame; AnimationFrame]).
  reflexivity.
Defined.

(** C7 at work: offline in [onContextCreate]; the loader reports an
    error in [loadMotorcycleModel]; the asset does not resolve. *)
Lemma failure_handlers_install_fallback_witness :
  (let s' := onContextCreate_load phone (AssetRejects "offline")
               (onContextCreate_setup initialState) in
   loading s' = false /\
   error s' = Some "Failed to load 3D model: offline"%string /\
   exists o, modelInScene s' o /\ isFallbackGroup o = true) /\
  (let s' := loadMotorcycleModel phone (ResolvesTo "file:///ducati_v4r.glb")
               (Runs (FetchFails "404") (Build_Box3 0 0 0 0)) initialState in
   loading s' = false /\ error s' <> None /\
   modelInScene s' fallbackModel) /\
  modelInScene
    (loadMotorcycleModel phone (ResolveThrows "no such module")
       (LoaderThrows "unused") initialState) oneBox.
Proof.
  destruct (failure_handlers_install_fallback phone)
    as (_ & Hctx & _ & Hload & Hbox).
  split; [|split].
  - apply (Hctx (AssetRejects "offline") (onContextCreate_setup initialState)
                "offline"%string).
    reflexivity.
  - apply (Hload ReactNativeGLTFLoader "file:///ducati_v4r.glb"%string
                 (FetchFails "404") (Build_Box3 0 0 0 0) initialState).
    + reflexivity.
    + discriminate.
    + left. exists "404"%string. reflexivity.
  - apply Hbox. right. left. exists "no such module"%string. reflexivity.
Defined.

End Witnesses.

(* ================================================================== *)
(** ** More on the classifier: keywords as substrings *)

Section Substrings.

Open Scope string_scope.

Lemma prefix_app (k s : string) : String.prefix k (k ++ s) = true.
Proof.
  induction k as [|c k IH]; simpl; [now destruct s|].
  destruct (ascii_dec c c) as [_|H]; [exact IH | now elim H].
Qed.

Lemma prefix_split (k s : string) :
  String.prefix k s = true -> exists post, s = k ++ post.
Proof.
  revert s. induction k as [|c k IH]; intros s H.
  - exists s. reflexivity.
  - destruct s as [|c' s]; simpl in H; [discriminate|].
    destruct (ascii_dec c c') as [<-|_]; [|discriminate].
    destruct (IH s H) as [post ->]. exists post. reflexivity.
Qed.

Lemma includes_unfold (s k : string) :
  includes s k
  = String.prefix k s
    || match s with
       | EmptyString => false
       | String _ s' => includes s' k
       end.
Proof. now destruct s. Qed.

(** [includes] is containment as a substring. *)
Lemma includes_spec (s k : string) :
  includes s k = true <-> exists pre post, s = pre ++ k ++ post.
Proof.
  split.
  - induction s as [|c s IH]; rewrite includes_unfold, orb_true_iff.
    + intros [H|H]; [|discriminate].
      apply prefix_split in H. destruct H as [post H].
      exists EmptyString, post. exact H.
    + intros [H|H].
      * apply prefix_split in H. destruct H as [post H].
        exists EmptyString, post. exact H.
      * destruct (IH H) as (pre & post & ->).
        exists (String c pre), post. reflexivity.
  - intros (pre & post & ->). induction pre as [|c pre IH].
    + change (EmptyString ++ k ++ post) with (k ++ post).
      rewrite includes_unfold. now rewrite prefix_app.
    + change (String c pre ++ k ++ post) with (String c (pre ++ k ++ post)).
      rewrite includes_unfold, IH. apply orb_true_r.
Qed.

Lemma anyIncludes_true (s : string) (ks : list string) :
  anyIncludes s ks = true <->
  exists k pre post, In k ks /\ s = pre ++ k ++ post.
Proof.
  unfold anyIncludes. rewrite existsb_exists. split.
  - intros (k & Hin & H). apply includes_spec in H.
    destruct H as (pre & post & H). eauto.
  - intros (k & pre & post & Hin & H). exists k. split; [exact Hin|].
    apply includes_spec. eauto.
Qed.

(** X1: BodyPaint is assigned exactly when the lower-cased material
    name contains "body", "fairing" or "tank" somewhere, or the
    lower-cased mesh name contains one of these or "paint" somewhere, or
    the mesh has more than 5000 vertices. *)
Theorem body_paint_iff_substring (materialName meshName : string)
    (count : option Z) :
  categoryOf materialName meshName count = BodyPaint <->
  (exists k pre post,
      In k ["body"; "fairing"; "tank"] /\
      toLowerCase materialName = pre ++ k ++ post) \/
  (exists k pre post,
      In k ["body"; "fairing"; "tank"; "paint"] /\
      toLowerCase meshName = pre ++ k ++ post) \/
  (exists n, count = Some n /\ (5000 < n)%Z).
Proof.
  unfold categoryOf. rewrite classify_BodyPaint. unfold bodyKeyword.
  rewrite orb_true_iff, !anyIncludes_true.
  assert (Hl : largeMesh count = true <->
               exists n, count = Some n /\ (5000 < n)%Z).
  { unfold largeMesh. destruct count as [n|].
    - rewrite Z.ltb_lt. split; [eauto | now intros (n' & [= <-] & H)].
    - split; [discriminate | now intros (n' & H & _)]. }
  rewrite Hl. tauto.
Qed.

(** X2: the keywords that the chain looks for in the mesh name only
    ("paint", "silver", "exhaust", "wheel", "lamp", "led", "saddle",
    "badge", "fiber") do not count in the material name: a mesh whose
    own name has no keyword and which has at most 5000 vertices is
    Default as soon as its material name has none of the twenty keywords
    looked for in material names. *)
Theorem mesh_only_keywords_ignored_in_material
    (materialName meshName : string) (count : option Z) :
  anyIncludes (toLowerCase materialName) materialKeywords = false ->
  noKeyword meshName = true ->
  largeMesh count = false ->
  categoryOf materialName meshName count = Default.
Proof.
  intros Hmat Hmesh Hcount.
  assert (Hm : forall ks, subset ks materialKeywords = true ->
                          anyIncludes (toLowerCase materialName) ks = false).
  { intros ks Hsub. apply anyIncludes_false. intros k Hin.
    rewrite anyIncludes_false in Hmat. apply Hmat.
    eapply subset_In; eauto. }
  unfold categoryOf, classify, bodyKeyword, chromeKeyword, rubberKeyword,
    glassKeyword, lightKeyword, seatKeyword, accentKeyword, carbonKeyword.
  rewrite Hcount.
  rewrite ?(@noKeyword_anyIncludes _ _ Hmesh) by reflexivity.
  rewrite !Hm by reflexivity. reflexivity.
Qed.

Lemma mesh_only_keywords_ignored_in_material_witness :
  categoryOf "Silver_Paint_Badge" "Object_12" (Some 300%Z) = Default.
Proof.
  apply mesh_only_keywords_ignored_in_material; reflexivity.
Defined.

End Substrings.

(* ================================================================== *)
(** ** The classification pass, mesh by mesh *)

Section Pass.

Open Scope R_scope.

Lemma isMesh_kind (o : Object3D) : kind o = MeshK -> isMesh o = true.
Proof. unfold isMesh. now intros ->. Qed.

(** The material the chain of branches starts from. *)
Lemma processMaterial_single (os : Platform) (child : Object3D)
    (m : Material.t) :
  material child = Single m ->
  exists m0,
    processMaterial os child
    = (m1 <- applyPreset (meshCategory child m) m0 ;;
       Some (Material.set_needsUpdate m1 true)) /\
    Material.name m0 = Material.name m /\
    Material.color m0
    = (match Material.color m with
       | Some c => Some c
       | None => Some Material.ColorStub
       end) /\
    Material.emissive m0 = Material.emissive m /\
    Material.side m0 = 2%Z /\
    Material.transparent m0 = Material.transparent m /\
    Material.opacity m0 = Material.opacity m.
Proof.
  intros Hm. unfold processMaterial, meshCategory. rewrite Hm.
  destruct m as [nm t1 t2 t3 t4 t5 t6 col em me ro op tr sd nu].
  destruct os, col as [col|]; eexists; (split; [reflexivity|]);
    simpl; rewrite ?orb_false_r; repeat split.
Qed.

(** What a branch makes of a material that has a colour. *)
Lemma applyPreset_fails (c : MaterialCategory) (m : Material.t) :
  Material.emissive m = None -> setsEmissive c = true ->
  applyPreset c m = None.
Proof.
  intros He Hs. destruct c; try discriminate Hs;
    unfold applyPreset, Classifier.bind, Material.color_setHex,
      Material.emissive_setHex; simpl; rewrite ?He;
    destruct (Material.color m); simpl; rewrite ?He; reflexivity.
Qed.

Lemma applyPreset_succeeds (c : MaterialCategory) (m : Material.t)
    (col : Material.Color) :
  Material.color m = Some col ->
  Material.emissive m <> None \/ setsEmissive c = false ->
  exists m',
    applyPreset c m = Some m' /\
    Material.name m' = Material.name m /\
    Material.side m' = Material.side m /\
    Material.metalness m' = Some (presetMetalness c) /\
    Material.roughness m' = Some (presetRoughness c) /\
    Material.transparent m'
    = (match c with Glass => true | _ => Material.transparent m end) /\
    Material.opacity m'
    = (match c with Glass => 0.3 | _ => Material.opacity m end) /\
    Material.color m'
    = Some (match presetColor c with
            | Some hex => Material.setHex col hex
            | None => col
            end).
Proof.
  intros Hc He.
  destruct (Material.emissive m) as [em|] eqn:Ee.
  - destruct c; unfold applyPreset, Classifier.bind, Material.color_setHex,
      Material.emissive_setHex; simpl; rewrite ?Hc; simpl; rewrite ?Ee;
      eexists; (split; [reflexivity|]); simpl; rewrite ?Hc; repeat split.
  - destruct He as [He|He]; [now elim He|].
    destruct c; try discriminate He;
      unfold applyPreset, Classifier.bind, Material.color_setHex; simpl;
      rewrite ?Hc; simpl;
      eexists; (split; [reflexivity|]); simpl; rewrite ?Hc; repeat split.
Qed.

(** X3: what the classification pass does to a mesh with one material.
    If the branch of its category sets the emissive colour and the
    material has none, the mesh gets the neutral gray material and its
    shadow flags are left alone.  Otherwise the mesh casts and receives
    shadows and its material keeps its name, is double-sided, is marked
    for update and has the metalness and roughness of the category. *)
Theorem classification_of_a_mesh (os : Platform) (child : Object3D)
    (m : Material.t) :
  kind child = MeshK -> material child = Single m ->
  let c := meshCategory child m in
  (Material.emissive m = None /\ setsEmissive c = true ->
   processChild os child = set_material child (Single neutralGray)) /\
  (Material.emissive m <> None \/ setsEmissive c = false ->
   exists m',
     processChild os child
     = set_shadows (set_material child (Single m')) true true /\
     Material.name m' = Material.name m /\
     Material.side m' = 2%Z /\
     Material.needsUpdate m' = true /\
     Material.metalness m' = Some (presetMetalness c) /\
     Material.roughness m' = Some (presetRoughness c)).
Proof.
  intros Hk Hm c.
  destruct (processMaterial_single os child m Hm)
    as (m0 & Hp & Hn & Hcol & Hem & Hsd & _).
  fold c in Hp. clearbody c.
  unfold processChild, hasMaterial. rewrite (isMesh_kind _ Hk), Hm, Hp.
  simpl andb. cbv iota. split.
  - intros [He Hs]. rewrite applyPreset_fails; [reflexivity| |exact Hs].
    now rewrite Hem.
  - intros He. rewrite <- Hem in He.
    assert (Hc : exists col, Material.color m0 = Some col)
      by (rewrite Hcol; destruct (Material.color m); eauto).
    destruct Hc as [col Hc].
    destruct (applyPreset_succeeds c m0 col Hc He)
      as (m' & -> & Hn' & Hs' & Hme & Hro & _).
    exists (Material.set_needsUpdate m' true).
    split; [reflexivity|]. simpl. repeat split; congruence.
Qed.

Lemma classification_of_a_mesh_witness :
  let tank :=
    Obj MeshK "Tank" (Single texturedMaterial)
        (Some (BufferGeometry (Some 1200%Z))) zero3 zero3 one3 false false []
  in
  exists m',
    processChild Mobile tank
    = set_shadows (set_material tank (Single m')) true true /\
    Material.name m' = "Body_Paint_01"%string /\
    Material.side m' = 2%Z /\
    Material.needsUpdate m' = true /\
    Material.metalness m' = Some 0.85 /\
    Material.roughness m' = Some 0.15.
Proof.
  intros tank.
  apply (proj2 (classification_of_a_mesh Mobile tank texturedMaterial
                  eq_refl eq_refl)).
  left. discriminate.
Defined.

(** X4: on a mesh that the pass classifies without failure, only the
    Glass branch touches transparency (it makes the material transparent
    with opacity 0.3); the BodyPaint branch leaves the colour as it is,
    and every other branch sets the colour of its category on a
    material that has a colour. *)
Theorem classification_colour_and_opacity (os : Platform) (child : Object3D)
    (m : Material.t) :
  kind child = MeshK -> material child = Single m ->
  let c := meshCategory child m in
  Material.emissive m <> None \/ setsEmissive c = false ->
  exists m',
    processChild os child
    = set_shadows (set_material child (Single m')) true true /\
    (c = Glass ->
     Material.transparent m' = true /\ Material.opacity m' = 0.3) /\
    (c <> Glass ->
     Material.transparent m' = Material.transparent m /\
     Material.opacity m' = Material.opacity m) /\
    (forall hex, Material.color m = Some (Material.ColorHex hex) ->
       Material.color m'
       = Some (Material.ColorHex
                 (match presetColor c with Some h => h | None => hex end))).
Proof.
  intros Hk Hm c He.
  destruct (processMaterial_single os child m Hm)
    as (m0 & Hp0 & Hn & Hcol & Hem & Hsd & Htr & Hop).
  fold c in Hp0. clearbody c.
  unfold processChild, hasMaterial.
  rewrite (isMesh_kind _ Hk), Hm, Hp0. simpl andb. cbv iota.
  assert (Hc : exists col, Material.color m0 = Some col)
    by (rewrite Hcol; destruct (Material.color m); eauto).
  destruct Hc as [col Hc]. rewrite <- Hem in He.
  destruct (applyPreset_succeeds c m0 col Hc He)
    as (m1 & -> & _ & _ & _ & _ & Ht1 & Ho1 & Hc1).
  exists (Material.set_needsUpdate m1 true). split; [reflexivity|].
  simpl. rewrite Ht1, Ho1, Hc1, Htr, Hop.
  split; [intros ->; auto|].
  split; [intros Hg; destruct c; auto; now elim Hg|].
  intros hex Hh. rewrite Hh in Hcol. rewrite Hcol in Hc.
  injection Hc as <-. destruct (presetColor c); reflexivity.
Qed.

Lemma classification_colour_and_opacity_witness :
  let visor :=
    Obj MeshK "Visor_Front" (Single texturedMaterial)
        (Some (BufferGeometry (Some 300%Z))) zero3 zero3 one3 false false []
  in
  exists m',
    processChild Web visor
    = set_shadows (set_material visor (Single m')) true true /\
    Material.transparent m' = false /\ Material.opacity m' = 1 /\
    Material.color m' = Some (Material.ColorHex 0xcc0000).
Proof.
  intros visor.
  destruct (classification_colour_and_opacity Web visor texturedMaterial
              eq_refl eq_refl) as (m' & Hp & _ & Hng & Hcol).
  - left. discriminate.
  - exists m'. split; [exact Hp|].
    destruct Hng as [Ht Ho]; [discriminate|].
    split; [exact Ht|]. split; [exact Ho|].
    apply (Hcol 0xcc0000%Z). reflexivity.
Defined.

End Pass.

(* ================================================================== *)
(** ** The passes over the scene graph and the loader *)

Section Passes.

Lemma skeleton_unfold (o : Object3D) :
  skeleton o
  = Obj (kind o) (oname o) NoMaterial (geometry o) (position o) (rotation o)
        (scale o) false false (List.map skeleton (children o)).
Proof. now destruct o. Qed.

Lemma traverse_skeleton (f : Object3D -> Object3D) :
  materialOnly f -> forall o, skeleton (traverse f o) = skeleton o.
Proof.
  intros Hf. induction o as [k n m g p r sc cs rs kids IH]
    using Object3D_tree_ind.
  rewrite traverse_unfold.
  destruct (Hf (Obj k n m g p r sc cs rs kids)) as (m' & c' & r' & ->).
  simpl. f_equal. rewrite map_map. apply map_ext_in.
  intros c Hc. rewrite Forall_forall in IH. now apply IH.
Qed.

Lemma materialOnly_stripTextures : materialOnly stripTextures.
Proof.
  intros [k n m g p r sc cs rs kids]. unfold stripTextures.
  destruct (isMesh _ && hasMaterial _); [|do 3 eexists; reflexivity].
  simpl. destruct m; do 3 eexists; reflexivity.
Qed.

Lemma materialOnly_prepareChild : materialOnly prepareChild.
Proof.
  intros [k n m g p r sc cs rs kids]. unfold prepareChild.
  destruct (isMesh _ && hasMaterial _); [|do 3 eexists; reflexivity].
  simpl. destruct m; do 3 eexists; reflexivity.
Qed.

Lemma materialOnly_processChild (os : Platform) :
  materialOnly (processChild os).
Proof.
  intros [k n m g p r sc cs rs kids]. unfold processChild.
  destruct (isMesh _ && hasMaterial _); [|do 3 eexists; reflexivity].
  destruct (processMaterial os _); simpl; do 3 eexists; reflexivity.
Qed.

(** X5: the three passes over a loaded scene graph (the clearing of the
    textures by the loader, the pass of [onContextCreate] and the
    classification pass) change materials and shadow flags only: names,
    kinds, geometries, transforms and the shape of the tree stay. *)
Theorem passes_keep_the_skeleton (os : Platform) (scene : Object3D) :
  skeleton (traverse stripTextures scene) = skeleton scene /\
  skeleton (traverse prepareChild scene) = skeleton scene /\
  skeleton (traverse (processChild os) scene) = skeleton scene.
Proof.
  split; [|split]; apply traverse_skeleton.
  - apply materialOnly_stripTextures.
  - apply materialOnly_prepareChild.
  - apply materialOnly_processChild.
Qed.

(** X6: what the loader reports is what the parser did.  A failed
    fetch, an error reported by the parser and an exception of the
    parser all reach the error callback with their message, also
    through the retry of the wrapper; a result reaches the success
    callback, as it is with the plain loader and with its textures
    cleared with the wrapper. *)
Theorem loader_reports_the_parser (cls : LoaderClass) (f : Fetch) :
  (forall message,
      load cls f = Failed message <->
      f = FetchFails message \/ f = Fetched (Reports message)
      \/ f = Fetched (Throws message)) /\
  (forall gltf,
      load cls f = Loaded gltf <->
      exists parsed,
        f = Fetched (Delivers parsed) /\
        gltf = match cls with
               | GLTFLoader => parsed
               | ReactNativeGLTFLoader => wrappedOnLoad parsed
               end).
Proof.
  split.
  - intros message. destruct cls, f as [e|[g|e|e]]; simpl; split;
      try (intros [= <-]; auto); try discriminate;
      intros [H|[H|H]]; try discriminate H; injection H as <-; reflexivity.
  - intros gltf. destruct cls, f as [e|[g|e|e]]; simpl; split;
      try discriminate; try (intros (parsed & H & _); discriminate H).
    + intros [= <-]. eauto.
    + intros (parsed & [= <-] & ->). reflexivity.
    + intros [= <-]. eauto.
    + intros (parsed & [= <-] & ->). reflexivity.
Qed.

Lemma children_set_children (o : Object3D) (cs : list Object3D) :
  children (set_children o cs) = cs.
Proof. reflexivity. Qed.

Lemma set_children_twice (o : Object3D) (cs cs' : list Object3D) :
  set_children (set_children o cs) cs' = set_children o cs'.
Proof. reflexivity. Qed.

Lemma traverse_traverse (f g : Object3D -> Object3D) :
  (forall o cs, g (set_children o cs) = set_children (g o) cs) ->
  forall o, traverse g (traverse f o) = traverse (fun x => g (f x)) o.
Proof.
  intros Hg. induction o as [k n m g0 p r sc cs rs kids IH]
    using Object3D_tree_ind.
  rewrite (traverse_unfold f), (traverse_unfold g),
    (traverse_unfold (fun x => g (f x))).
  rewrite children_set_children, Hg, set_children_twice.
  f_equal. rewrite map_map. apply map_ext_in.
  intros c Hc. rewrite Forall_forall in IH. now apply IH.
Qed.

Lemma traverse_ext (f g : Object3D -> Object3D) :
  (forall o, f o = g o) -> forall o, traverse f o = traverse g o.
Proof.
  intros H. induction o as [k n m g0 p r sc cs rs kids IH]
    using Object3D_tree_ind.
  rewrite !traverse_unfold, H. f_equal. apply map_ext_in.
  intros c Hc. rewrite Forall_forall in IH. now apply IH.
Qed.

Lemma stripTextures_set_children (o : Object3D) (cs : list Object3D) :
  stripTextures (set_children o cs) = set_children (stripTextures o) cs.
Proof.
  destruct o as [k n m g p r sc c r' kids]. unfold stripTextures. simpl.
  destruct (isMesh _ && hasMaterial _); [|reflexivity].
  simpl. now destruct m.
Qed.

Lemma processChild_set_children (os : Platform) (o : Object3D)
    (cs : list Object3D) :
  processChild os (set_children o cs) = set_children (processChild os o) cs.
Proof.
  destruct o as [k n m g p r sc c r' kids]. unfold processChild. simpl.
  destruct (isMesh _ && hasMaterial _); [|reflexivity].
  unfold processMaterial. simpl. destruct m; try reflexivity.
  match goal with |- context [Classifier.bind ?e ?k] =>
    destruct (Classifier.bind e k) end; reflexivity.
Qed.

Lemma clearMaterial_idem (m : Material.t) :
  clearMaterial (clearMaterial m) = clearMaterial m.
Proof. reflexivity. Qed.

Lemma map_clearMaterial_idem (ms : list Material.t) :
  List.map clearMaterial (List.map clearMaterial ms)
  = List.map clearMaterial ms.
Proof. induction ms as [|m ms IH]; simpl; [|rewrite IH]; reflexivity. Qed.

Lemma stripTextures_idem (o : Object3D) :
  stripTextures (stripTextures o) = stripTextures o.
Proof.
  destruct o as [k n m g p r sc c r' kids]. unfold stripTextures.
  destruct k, m as [|m|ms]; simpl; try reflexivity.
  now rewrite map_clearMaterial_idem.
Qed.

Lemma processChild_stripTextures (o : Object3D) :
  processChild Mobile (stripTextures o) = processChild Mobile o.
Proof.
  destruct o as [k n m g p r sc c r' kids]. unfold stripTextures.
  destruct k, m as [|m|ms]; simpl; try reflexivity.
  unfold processChild. simpl. unfold processMaterial. simpl.
  destruct m as [nm t1 t2 t3 t4 t5 t6 col em me ro op tr sd nu].
  destruct t1, t2, t3, t4, t5, t6, col; reflexivity.
Qed.

(** X7: clearing the textures twice is clearing them once; and on a
    phone the classification pass of [loadMotorcycleModel] gives the
    same materials whether or not the loader has cleared the textures
    before it. *)
Theorem texture_clearing_composes (gltf : GLTF) (scene : Object3D) :
  wrappedOnLoad (wrappedOnLoad gltf) = wrappedOnLoad gltf /\
  traverse (processChild Mobile) (traverse stripTextures scene)
  = traverse (processChild Mobile) scene.
Proof.
  split.
  - unfold wrappedOnLoad. destruct gltf as [[sc|]]; simpl; [|reflexivity].
    do 2 f_equal. rewrite traverse_traverse
      by apply stripTextures_set_children.
    apply traverse_ext, stripTextures_idem.
  - rewrite traverse_traverse by apply processChild_set_children.
    apply traverse_ext, processChild_stripTextures.
Qed.

End Passes.

(* ================================================================== *)
(** ** More on the gestures *)

Section Gestures.

Open Scope R_scope.

Variable env : Env.

(** X8: a move event is ignored, and leaves every ref and every piece of
    state as it is, when it has no touch or more than two, when it has
    one touch and there is no model yet, and when it has two touches and
    there is no camera yet. *)
Theorem ignored_moves (touches : list Touch) (g : GestureState) (s : State) :
  (List.length touches <> 1%nat /\ List.length touches <> 2%nat) \/
  (List.length touches = 1%nat /\ bikeModel s = None) \/
  (List.length touches = 2%nat /\ cameraRef s = None) ->
  onPanResponderMove touches g s = s.
Proof.
  unfold onPanResponderMove.
  destruct touches as [|t1 [|t2 [|t3 ts]]]; simpl;
    intros [[H1 H2]|[[H1 H2]|[H1 H2]]]; try congruence; try discriminate;
    try (rewrite H2; reflexivity);
    destruct (bikeModel s); try reflexivity; try (now rewrite H2).
Qed.

Lemma ignored_moves_witness :
  onPanResponderMove [finger] {| dx := 40; dy := 0 |} initialState
  = initialState.
Proof.
  apply ignored_moves. right. left. split; reflexivity.
Defined.

Lemma length_updateAt (f : Object3D -> Object3D) (i : nat)
    (xs : list Object3D) :
  List.length (updateAt i f xs) = List.length xs.
Proof.
  revert i. induction xs as [|o xs IH]; intros [|i]; simpl; auto.
Qed.

Lemma updateBikeModel_frame (f : Object3D -> Object3D) (s : State) :
  zoomRef (updateBikeModel f s) = zoomRef s /\
  cameraRef (updateBikeModel f s) = cameraRef s /\
  pinchDataRef (updateBikeModel f s) = pinchDataRef s /\
  loading (updateBikeModel f s) = loading s /\
  error (updateBikeModel f s) = error s /\
  modelLoaded (updateBikeModel f s) = modelLoaded s /\
  bikeModelRef (updateBikeModel f s) = bikeModelRef s /\
  List.length (scene (updateBikeModel f s)) = List.length (scene s).
Proof.
  unfold updateBikeModel. destruct (bikeModelRef s) as [i|] eqn:E;
    repeat split; try exact E. simpl. apply length_updateAt.
Qed.

Lemma rotateModel_frame (g : GestureState) (s : State) :
  zoomRef (rotateModel g s) = zoomRef s /\
  cameraRef (rotateModel g s) = cameraRef s /\
  pinchDataRef (rotateModel g s) = pinchDataRef s /\
  loading (rotateModel g s) = loading s /\
  error (rotateModel g s) = error s /\
  bikeModelRef (rotateModel g s) = bikeModelRef s.
Proof.
  rewrite rotateModel_eq.
  match goal with
  | |- context [updateBikeModel ?f (updateBikeModel ?h ?s0)] =>
      destruct (updateBikeModel_frame f (updateBikeModel h s0))
        as (-> & -> & -> & -> & -> & _ & -> & _);
      destruct (updateBikeModel_frame h s0)
        as (-> & -> & -> & -> & -> & _ & -> & _)
  end.
  repeat split.
Qed.

Lemma render_frame (s : State) :
  zoomRef (render env s) = zoomRef s /\
  cameraRef (render env s) = cameraRef s /\
  pinchDataRef (render env s) = pinchDataRef s /\
  loading (render env s) = loading s /\
  error (render env s) = error s /\
  bikeModelRef (render env s) = bikeModelRef s /\
  List.length (scene (render env s)) = List.length (scene s).
Proof.
  unfold render.
  destruct (autoRotate env), (bikeModel (set_renderScheduled s true));
    try (repeat split; fail).
  match goal with
  | |- context [updateBikeModel ?f ?s0] =>
      destruct (updateBikeModel_frame f s0)
        as (Hz & Hc & Hp & Hl & He & _ & Hb & Hn)
  end.
  simpl. rewrite Hz, Hc, Hp, Hl, He, Hb, Hn. repeat split.
Qed.

(** X9: the two gestures do not interfere.  A move with one finger
    changes neither the zoom, the camera nor the pinch data (nor the load
    state); a pinch changes neither the stored rotation, the velocity,
    the scene nor the model ref. *)
Theorem gestures_are_independent (t t1 t2 : Touch) (g : GestureState)
    (s : State) :
  (let s' := onPanResponderMove [t] g s in
   zoomRef s' = zoomRef s /\ cameraRef s' = cameraRef s /\
   pinchDataRef s' = pinchDataRef s /\ loading s' = loading s /\
   error s' = error s /\ bikeModelRef s' = bikeModelRef s) /\
  (let s' := onPanResponderMove [t1; t2] g s in
   rotationRef s' = rotationRef s /\ velocityRef s' = velocityRef s /\
   scene s' = scene s /\ bikeModelRef s' = bikeModelRef s /\
   loading s' = loading s /\ error s' = error s).
Proof.
  split.
  - unfold onPanResponderMove. destruct (bikeModel s); [|repeat split].
    apply rotateModel_frame.
  - unfold onPanResponderMove.
    destruct (bikeModel s), (cameraRef s); try (repeat split; fail);
      unfold pinchZoom;
      destruct (negb (truthy (initialDistance (pinchDataRef s))));
      repeat split.
Qed.

(** X10: the pitch after a move with one finger is the stored pitch plus
    0.0001 times the vertical displacement, cut off at PI/3 and at
    -PI/3; the yaw is the stored yaw plus 0.0004 times the horizontal
    displacement and is not cut off. *)
Theorem one_move_rotation (t : Touch) (g : GestureState) (s : State)
    (pitch yaw : R) :
  bikeModel s <> None ->
  rotationRef s = {| x := Num pitch; y := Num yaw |} ->
  let s' := onPanResponderMove [t] g s in
  let target := pitch + 0.0001 * dy g in
  rotationRef s'
  = {| x := Num (clampPitch target); y := Num (yaw + 0.0004 * dx g) |} /\
  modelPitch s' = Some (Num (clampPitch target)) /\
  modelYaw s' = Some (Num (yaw + 0.0004 * dx g)) /\
  (PI / 3 <= target -> clampPitch target = PI / 3) /\
  (target <= - PI / 3 -> clampPitch target = - PI / 3) /\
  (- PI / 3 <= target <= PI / 3 -> clampPitch target = target).
Proof.
  intros Hm Hr s' target.
  assert (Hs' : s' = rotateModel g s).
  { subst s'. unfold onPanResponderMove. destruct (bikeModel s); congruence. }
  assert (Hp : movedPitch g s = Num (clampPitch target)).
  { unfold movedPitch, clampPitch, target, sensitivity. rewrite Hr. simpl.
    do 3 f_equal. lra. }
  assert (Hy : movedYaw g s = Num (yaw + 0.0004 * dx g)).
  { unfold movedYaw, sensitivity. rewrite Hr. simpl. f_equal. lra. }
  pose proof PI_RGT_0 as Hpi.
  split; [|split; [|split; [|split; [|split]]]].
  - rewrite Hs', rotationRef_rotateModel, Hp, Hy. reflexivity.
  - unfold modelPitch. rewrite Hs', bikeModel_rotateModel, Hp.
    destruct (bikeModel s); [reflexivity | congruence].
  - unfold modelYaw. rewrite Hs', bikeModel_rotateModel, Hy.
    destruct (bikeModel s); [reflexivity | congruence].
  - intros H. unfold clampPitch, Rmax, Rmin. repeat destruct Rle_dec; lra.
  - intros H. unfold clampPitch, Rmax, Rmin. repeat destruct Rle_dec; lra.
  - intros H. unfold clampPitch, Rmax, Rmin. repeat destruct Rle_dec; lra.
Qed.

End Gestures.

(* ================================================================== *)
(** ** Zoom over whole runs, pinch frames, auto-rotation *)

Section ZoomAndLoop.

Open Scope R_scope.

Variable env : Env.

Lemma loadModel_frame (a : LoadAttempt) (s s' : State) :
  loadModel env a s = inr s' ->
  zoomRef s' = zoomRef s /\ pinchDataRef s' = pinchDataRef s /\
  cameraRef s' = cameraRef s.
Proof.
  unfold loadModel.
  destruct createReactNativeCompatibleLoader as [cls|]; [|discriminate].
  destruct a as [m|f box]; [discriminate|].
  destruct (load cls f) as [gl|m]; [|discriminate].
  destruct (gltf_scene gl); [|discriminate].
  intros [= <-]. repeat split.
Qed.

Lemma zoomOk_same (s s' : State) :
  zoomRef s' = zoomRef s -> pinchDataRef s' = pinchDataRef s ->
  zoomOk s -> zoomOk s'.
Proof. unfold zoomOk. now intros -> ->. Qed.

Lemma zoomOk_step (s : State) (e : Event) :
  distinctTouches e -> zoomOk s -> zoomOk (step env s e).
Proof.
  intros Hd Hs. destruct e as [|msg|a| |touches g| | |]; simpl.
  - exact Hs.
  - exact Hs.
  - unfold onContextCreate_load.
    destruct (render_frame env
                match loadModel env a s with
                | inl message =>
                    createFallbackModel
                      (setLoading
                         (setError s ("Failed to load 3D model: " ++ message))
                         false)
                | inr s0 => s0
                end) as (Hz & _ & Hp & _).
    eapply zoomOk_same; [exact Hz | exact Hp |].
    destruct (loadModel env a s) as [msg|s1] eqn:E; [exact Hs|].
    destruct (loadModel_frame a s s1 E) as (H1 & H2 & _).
    eapply zoomOk_same; eauto.
  - split; [|exact I]. unfold onPanResponderGrant.
    destruct (bikeModel s); apply Hs.
  - unfold onPanResponderMove.
    destruct touches as [|t1 [|t2 [|t3 ts]]]; try exact Hs.
    + destruct (bikeModel s); [|exact Hs].
      destruct (rotateModel_frame g s) as (H1 & _ & H2 & _).
      eapply zoomOk_same; eauto.
    + destruct (bikeModel s), (cameraRef s) as [c|]; try exact Hs;
        (apply pinch_zoom_in_range; [exact Hs | intros _; exact Hd]).
  - split; [apply Hs | exact I].
  - unfold animationFrame. destruct (renderScheduled s); [|exact Hs].
    destruct (render_frame env (set_renderScheduled s false))
      as (Hz & _ & Hp & _).
    eapply zoomOk_same; [exact Hz | exact Hp | exact Hs].
  - exact Hs.
Qed.

Lemma zoomOk_initialState : zoomOk initialState.
Proof. split; simpl; [lra | exact I]. Qed.

(** X11: as long as no pinch event has its two touches on the same
    point, the zoom is in [0.5, 12] in every state the component
    reaches, whatever else happens. *)
Theorem zoom_stays_in_range (es : list Event) :
  Forall distinctTouches es ->
  zoomRange (zoomRef (run env initialState es)).
Proof.
  intros H.
  assert (Hok : zoomOk (run env initialState es)).
  { generalize zoomOk_initialState. generalize initialState.
    induction H as [|e es He Hes IH]; intros s Hs; [exact Hs|].
    apply IH. now apply zoomOk_step. }
  apply Hok.
Qed.


Lemma clampZoom_range (z : R) : 0.5 <= clampZoom z <= 12.
Proof. unfold clampZoom, Rmax, Rmin. repeat destruct Rle_dec; lra. Qed.

Lemma move_two_touches (t1 t2 : Touch) (g : GestureState) (c : Camera)
    (s : State) :
  cameraRef s = Some c ->
  onPanResponderMove [t1; t2] g s = pinchZoom t1 t2 c s.
Proof.
  intros Hc. unfold onPanResponderMove.
  destruct (bikeModel s); now rewrite Hc.
Qed.

(** One frame of a pinch in progress, with a positive distance. *)
Lemma pinch_frame_next (f : Touch * Touch) (g : GestureState) (c : Camera)
    (s : State) (d0 z0 : R) :
  cameraRef s = Some c ->
  pinchDataRef s = {| initialDistance := Some (Num d0);
                      initialZoom := Some (Num z0) |} ->
  0 < d0 -> 0 < distance f ->
  let s' := step env s (Move [fst f; snd f] g) in
  zoomRef s' = Num (clampZoom (z0 * (d0 / distance f))) /\
  pinchDataRef s' = pinchDataRef s /\ cameraRef s' <> None.
Proof.
  intros Hc Hp Hd0 Hd s'. subst s'.
  change (step env s (Move [fst f; snd f] g))
    with (onPanResponderMove [fst f; snd f] g s).
  rewrite (move_two_touches _ _ _ c s Hc).
  assert (Ht : truthy (initialDistance (pinchDataRef s)) = true)
    by (rewrite Hp; now apply truthy_pos).
  split; [|split].
  - rewrite zoomRef_pinchZoom_next by exact Ht. rewrite Hp. simpl orNaN.
    fold (distance f). rewrite jdiv_pos by exact Hd. reflexivity.
  - unfold pinchZoom. rewrite Ht. reflexivity.
  - rewrite cameraRef_pinchZoom. discriminate.
Qed.

Lemma pinch_frames_next (fs : list (Touch * Touch)) (g : GestureState)
    (s : State) (d0 z0 : R) (f0 : Touch * Touch) :
  cameraRef s <> None ->
  pinchDataRef s = {| initialDistance := Some (Num d0);
                      initialZoom := Some (Num z0) |} ->
  0 < d0 -> Forall (fun f => 0 < distance f) fs ->
  fs <> [] ->
  zoomRef (run env s (pinch g fs))
  = Num (clampZoom (z0 * (d0 / distance (last fs f0)))).
Proof.
  intros Hc Hp Hd0 Hfs. revert s Hc Hp.
  induction Hfs as [|f fs Hf Hfs IH]; intros s Hc Hp Hne; [congruence|].
  destruct (cameraRef s) as [c|] eqn:Ec; [|congruence].
  destruct (pinch_frame_next f g c s d0 z0 Ec Hp Hd0 Hf) as (Hz & Hp' & Hc').
  change (run env s (pinch g (f :: fs)))
    with (run env (step env s (Move [fst f; snd f] g)) (pinch g fs)).
  destruct fs as [|f' fs'].
  - exact Hz.
  - change (last (f :: f' :: fs') f0) with (last (f' :: fs') f0).
    apply IH; [exact Hc' | now rewrite Hp' | discriminate].
Qed.

(** X12: a pinch has no memory of the frames in between.  After the
    touch starts, with a camera and zoom [z0], a pinch whose frames all
    have their touches apart stores, at every frame, [z0] times the
    distance of the first frame over the distance of the current one,
    cut to [0.5, 12]; in particular the first frame stores [z0] itself
    when it is in that range. *)
Theorem pinch_depends_on_first_and_last (f0 : Touch * Touch)
    (fs : list (Touch * Touch)) (g : GestureState) (s : State) (z0 : R) :
  cameraRef s <> None -> zoomRef s = Num z0 ->
  Forall (fun f => 0 < distance f) (f0 :: fs) ->
  let s' := run env s (Grant :: pinch g (f0 :: fs)) in
  zoomRef s'
  = Num (clampZoom (z0 * (distance f0 / distance (last fs f0)))) /\
  (fs = [] -> 0.5 <= z0 <= 12 -> zoomRef s' = Num z0).
Proof.
  intros Hc Hz Hfs s'.
  inversion Hfs as [|f0' fs' Hf0 Hfs' E]; subst.
  assert (Hc1 : cameraRef (onPanResponderGrant s) = cameraRef s)
    by (unfold onPanResponderGrant; now destruct (bikeModel s)).
  assert (Hz1 : zoomRef (onPanResponderGrant s) = Num z0)
    by (unfold onPanResponderGrant; now destruct (bikeModel s)).
  assert (Hp1 : pinchDataRef (onPanResponderGrant s) = noPinch)
    by reflexivity.
  change s' with (run env (onPanResponderGrant s) (pinch g (f0 :: fs))).
  clear s'. revert Hc1 Hz1 Hp1. generalize (onPanResponderGrant s).
  intros s1 Hc1 Hz1 Hp1.
  destruct (cameraRef s1) as [c|] eqn:Ec; [|congruence].
  pose (s2 := step env s1 (Move [fst f0; snd f0] g)).
  assert (Hs2 : s2 = pinchZoom (fst f0) (snd f0) c s1).
  { unfold s2.
    change (step env s1 (Move [fst f0; snd f0] g))
      with (onPanResponderMove [fst f0; snd f0] g s1).
    now apply move_two_touches. }
  assert (Hz2 : zoomRef s2 = Num (clampZoom (z0 * (distance f0 / distance f0)))).
  { rewrite Hs2, zoomRef_pinchZoom_first by now rewrite Hp1.
    fold (distance f0). rewrite jdiv_pos by exact Hf0. rewrite Hz1.
    reflexivity. }
  assert (Hp2 : pinchDataRef s2
                = {| initialDistance := Some (Num (distance f0));
                     initialZoom := Some (Num z0) |}).
  { rewrite Hs2. unfold pinchZoom. rewrite Hp1. simpl. fold (distance f0).
    now rewrite Hz1. }
  assert (Hc2 : cameraRef s2 <> None)
    by (rewrite Hs2, cameraRef_pinchZoom; discriminate).
  assert (H : zoomRef (run env s1 (pinch g (f0 :: fs)))
              = Num (clampZoom (z0 * (distance f0 / distance (last fs f0))))).
  { change (run env s1 (pinch g (f0 :: fs))) with (run env s2 (pinch g fs)).
    destruct fs as [|f fs]; [exact Hz2|].
    apply pinch_frames_next; auto. discriminate. }
  split; [exact H|].
  intros -> Hr. rewrite H. simpl. f_equal.
  replace (z0 * (distance f0 / distance f0)) with z0 by (field; lra).
  unfold clampZoom, Rmax, Rmin. repeat destruct Rle_dec; lra.
Qed.

Lemma animationFrame_turns (s : State) (yaw : R) :
  autoRotate env = true -> renderScheduled s = true ->
  modelYaw s = Some (Num yaw) ->
  let s' := step env s AnimationFrame in
  modelYaw s' = Some (Num (yaw + 0.005)) /\ renderScheduled s' = true /\
  frames s' = S (frames s) /\ rotationRef s' = rotationRef s.
Proof.
  intros Ha Hr Hy. simpl. unfold animationFrame. rewrite Hr.
  unfold render. rewrite Ha.
  change (bikeModel (set_renderScheduled (set_renderScheduled s false) true))
    with (bikeModel s).
  unfold modelYaw in *. destruct (bikeModel s) as [m|] eqn:E; [|discriminate].
  simpl in Hy. injection Hy as Hy.
  match goal with
  | |- context [updateBikeModel ?f ?s0] =>
      pose proof (bikeModel_updateBikeModel f s0) as Hb;
      pose proof (rotationRef_updateBikeModel f s0) as Hrot;
      pose proof (renderScheduled_updateBikeModel f s0) as (Hrs & Hfr & _)
  end.
  change (bikeModel (set_renderScheduled (set_renderScheduled s false) true))
    with (bikeModel s) in Hb. rewrite E in Hb. simpl in Hb.
  repeat split.
  - change (bikeModel (set_frames ?a ?b)) with (bikeModel a).
    rewrite Hb. simpl. now rewrite Hy.
  - simpl. exact Hrs.
  - simpl. now rewrite Hfr.
  - simpl. exact Hrot.
Qed.

(** X13: with [autoRotate] and a model, [n] animation frames of a
    running render loop turn the model by [n] times 0.005 and present
    [n] frames; the stored rotation of the gestures is not touched. *)
Theorem auto_rotation_adds_up (n : nat) (s : State) (yaw : R) :
  autoRotate env = true -> renderScheduled s = true ->
  modelYaw s = Some (Num yaw) ->
  let s' := run env s (repeat AnimationFrame n) in
  modelYaw s' = Some (Num (yaw + 0.005 * INR n)) /\
  frames s' = (frames s + n)%nat /\
  rotationRef s' = rotationRef s.
Proof.
  intros Ha. revert s yaw.
  induction n as [|n IH]; intros s yaw Hr Hy.
  - simpl. replace (yaw + 0.005 * 0) with yaw by lra.
    repeat split; [exact Hy | lia].
  - destruct (animationFrame_turns s yaw Ha Hr Hy) as (Hy' & Hr' & Hf & Hrot).
    destruct (IH _ _ Hr' Hy') as (H1 & H2 & H3).
    change (run env s (repeat AnimationFrame (S n)))
      with (run env (step env s AnimationFrame) (repeat AnimationFrame n)).
    cbv zeta. rewrite H1, H2, H3, Hf, Hrot, S_INR.
    repeat split; [|lia]. do 2 f_equal. lra.
Qed.

End ZoomAndLoop.

(* ================================================================== *)
(** ** The load state over whole runs *)

Section LoadState.

Open Scope R_scope.

Variable env : Env.

Lemma pinchZoom_state (t1 t2 : Touch) (c : Camera) (s : State) :
  loading (pinchZoom t1 t2 c s) = loading s /\
  error (pinchZoom t1 t2 c s) = error s.
Proof.
  unfold pinchZoom.
  destruct (negb (truthy (initialDistance (pinchDataRef s)))); auto.
Qed.

Lemma loading_step (s : State) (e : Event) :
  loading s = false -> loading (step env s e) = false.
Proof.
  intros H. destruct e as [|msg|a| |touches g| | |]; cbn [step]; auto.
  - unfold onContextCreate_load. rewrite loading_render.
    destruct (loadModel env a s) as [m|s'] eqn:E; [reflexivity|].
    now apply loadModel_loading in E.
  - unfold onPanResponderGrant. now destruct (bikeModel s).
  - unfold onPanResponderMove.
    destruct touches as [|t1 [|t2 [|t3 ts]]]; auto.
    + destruct (bikeModel s); auto.
      now rewrite (proj1 (proj2 (proj2 (proj2 (rotateModel_frame g s))))).
    + destruct (bikeModel s), (cameraRef s); auto;
        now rewrite (proj1 (pinchZoom_state _ _ _ _)).
  - unfold animationFrame. destruct (renderScheduled s); auto.
    now rewrite loading_render.
Qed.

Lemma error_step (s : State) (e : Event) :
  error s <> None -> error (step env s e) <> None.
Proof.
  intros H. destruct e as [|msg|a| |touches g| | |]; cbn [step]; auto.
  - discriminate.
  - unfold onContextCreate_load.
    rewrite (proj1 (proj2 (proj2 (proj2 (proj2 (render_frame env _)))))).
    destruct (loadModel env a s) as [m|s'] eqn:E; [discriminate|].
    unfold loadModel in E.
    destruct createReactNativeCompatibleLoader as [cls|]; [|discriminate].
    destruct a as [m|f box]; [discriminate|].
    destruct (load cls f) as [gl|m]; [|discriminate].
    destruct (gltf_scene gl); [|discriminate].
    injection E as <-. exact H.
  - unfold onPanResponderGrant. now destruct (bikeModel s).
  - unfold onPanResponderMove.
    destruct touches as [|t1 [|t2 [|t3 ts]]]; auto.
    + destruct (bikeModel s); auto.
      now rewrite
        (proj1 (proj2 (proj2 (proj2 (proj2 (rotateModel_frame g s)))))).
    + destruct (bikeModel s), (cameraRef s); auto;
        now rewrite (proj2 (pinchZoom_state _ _ _ _)).
  - unfold animationFrame. destruct (renderScheduled s); auto.
    now rewrite (proj1 (proj2 (proj2 (proj2 (proj2 (render_frame env _)))))).
Qed.

(** X14: the load state is terminal.  Once the load attempt has
    settled, with a model or with a failure, the component is not
    loading, and nothing that happens later makes it loading again; an
    error message, once there, is never cleared. *)
Theorem load_state_is_terminal (s : State) (a : LoadAttempt)
    (es : list Event) :
  loading (run env s (LoadSettled a :: es)) = false /\
  (error s <> None -> error (run env s es) <> None).
Proof.
  split.
  - assert (H : loading (step env s (LoadSettled a)) = false)
      by (cbn [step]; unfold onContextCreate_load; rewrite loading_render;
          destruct (loadModel env a s) as [m|s'] eqn:E;
          [reflexivity | now apply loadModel_loading in E]).
    change (run env s (LoadSettled a :: es))
      with (run env (step env s (LoadSettled a)) es).
    revert H. generalize (step env s (LoadSettled a)).
    induction es as [|e es IH]; intros s0 H; [exact H|].
    apply IH. now apply loading_step.
  - revert s. induction es as [|e es IH]; intros s H; [exact H|].
    apply IH. now apply error_step.
Qed.

Lemma bikeModel_length (s : State) :
  bikeModel s <> None <->
  exists i, bikeModelRef s = Some i /\ (i < List.length (scene s))%nat.
Proof.
  unfold bikeModel. destruct (bikeModelRef s) as [i|].
  - rewrite nth_error_Some. split; [eauto | now intros (j & [= <-] & H)].
  - split; [congruence | now intros (j & H & _)].
Qed.

Lemma bikeModel_same (s s' : State) :
  bikeModelRef s' = bikeModelRef s ->
  List.length (scene s') = List.length (scene s) ->
  bikeModel s <> None -> bikeModel s' <> None.
Proof. rewrite !bikeModel_length. now intros -> ->. Qed.

Lemma bikeModel_settled (a : LoadAttempt) (s : State) :
  bikeModel (step env s (LoadSettled a)) <> None.
Proof.
  cbn [step]. unfold onContextCreate_load.
  match goal with
  | |- bikeModel (render env ?s0) <> None =>
      destruct (render_frame env s0) as (_ & _ & _ & _ & _ & Hb & Hn);
      apply (bikeModel_same s0); auto
  end.
  destruct (loadModel env a s) as [m|s'] eqn:E.
  - apply bikeModel_length. exists (List.length (scene s)).
    split; [reflexivity|]. simpl. rewrite length_app. simpl. lia.
  - now apply loadModel_loading in E.
Qed.

Lemma bikeModel_step (s : State) (e : Event) :
  isContextCreated e = false ->
  bikeModel s <> None -> bikeModel (step env s e) <> None.
Proof.
  intros He H. destruct e as [|msg|a| |touches g| | |]; cbn [step];
    try discriminate He; try exact H.
  - apply bikeModel_settled.
  - apply (bikeModel_same s); [| |exact H];
      unfold onPanResponderGrant; destruct (bikeModel s); reflexivity.
  - unfold onPanResponderMove.
    destruct touches as [|t1 [|t2 [|t3 ts]]]; auto.
    + destruct (bikeModel s) eqn:E; auto.
      rewrite bikeModel_rotateModel, E. discriminate.
    + destruct (bikeModel s) eqn:E; [|congruence].
      destruct (cameraRef s) as [c|]; [|now rewrite E].
      destruct (pinchZoom_frame t1 t2 c s) as (_ & Hs & Hb).
      apply (bikeModel_same s); [exact Hb | now rewrite Hs | now rewrite E].
  - unfold animationFrame. destruct (renderScheduled s); auto.
    destruct (render_frame env (set_renderScheduled s false))
      as (_ & _ & _ & _ & _ & Hb & Hn).
    apply (bikeModel_same (set_renderScheduled s false)); auto.
Qed.

(** X15: the viewer always has something to show.  After the load
    attempt has settled, whatever its outcome, there is a model in the
    scene behind the model ref, and there still is one after any later
    events (as long as the GL context is not created anew). *)
Theorem model_present_after_load (s : State) (a : LoadAttempt)
    (es : list Event) :
  forallb (fun e => negb (isContextCreated e)) es = true ->
  bikeModel (run env s (LoadSettled a :: es)) <> None.
Proof.
  intros Hes.
  change (run env s (LoadSettled a :: es))
    with (run env (step env s (LoadSettled a)) es).
  generalize (bikeModel_settled a s).
  generalize (step env s (LoadSettled a)).
  induction es as [|e es IH]; intros s0 H; [exact H|].
  simpl in Hes. apply andb_true_iff in Hes. destruct Hes as [He Hes].
  apply IH; [exact Hes|]. apply bikeModel_step; [|exact H].
  now apply negb_true_iff.
Qed.

End LoadState.

(* ================================================================== *)
(** ** The asset resolver and the patches *)

Section ResolverFacts.

Open Scope string_scope.

Lemma checked_nonEmpty (o : option string) (modelUri : string) :
  checked o = ResolvesTo modelUri ->
  o = Some modelUri /\ modelUri <> EmptyString.
Proof.
  destruct o as [[|c u]|]; simpl; try discriminate.
  intros [= <-]. split; [reflexivity | discriminate].
Qed.

(** X16: the resolver gives a URI that is not empty, or it throws.  On
    the web the URI is the relative path of the model, whatever the
    bundler returned; elsewhere a path returned by the bundler is used
    as it is, without a download, and an asset id (or anything else)
    gives the local URI of the downloaded asset, or its remote URI when
    it has no local one. *)
Theorem resolver_gives_a_uri_or_throws (os : Platform)
    (requiredAsset : RequiredAsset) (modelAsset : ModelAsset) :
  (forall modelUri,
      resolveModelUri os requiredAsset modelAsset = ResolvesTo modelUri ->
      modelUri <> EmptyString) /\
  (os = Web ->
   resolveModelUri os requiredAsset modelAsset
   = ResolvesTo "./assets/models/ducati_v4r.glb") /\
  (os = Mobile ->
   forall path, requiredAsset = AssetPath path -> path <> EmptyString ->
   resolveModelUri os requiredAsset modelAsset = ResolvesTo path) /\
  (os = Mobile ->
   (forall path, requiredAsset <> AssetPath path) ->
   failure modelAsset = None ->
   forall modelUri,
     resolveModelUri os requiredAsset modelAsset = ResolvesTo modelUri ->
     (localUri modelAsset = Some modelUri \/
      (nonEmpty (localUri modelAsset) = false /\
       uri modelAsset = Some modelUri))).
Proof.
  split; [|split; [|split]].
  - intros modelUri. unfold resolveModelUri, viaAssetModule.
    destruct os, requiredAsset; cbn [isWeb negb];
      try destruct (failure modelAsset); try discriminate;
      intros H; now apply checked_nonEmpty in H.
  - intros ->. reflexivity.
  - intros -> path -> Hp. simpl. destruct path; [congruence | reflexivity].
  - intros -> Hnp Hf modelUri. unfold resolveModelUri, viaAssetModule.
    rewrite Hf. unfold orElse.
    destruct requiredAsset as [id|path|]; cbn [isWeb negb];
      try (now elim (Hnp path));
      destruct (nonEmpty (localUri modelAsset)) eqn:E;
      intros H; apply checked_nonEmpty in H; destruct H as [H _]; auto.
Qed.

Variable env : Env.

(** X17: in [loadMotorcycleModel], when GLTFLoader is there and the
    resolver throws, the model is the one-box group and the component is
    marked as having its model; no error message is set and the loading
    flag is left as it was. *)
Theorem unresolved_asset_sets_no_error (requiredAsset : RequiredAsset)
    (modelAsset : ModelAsset) (l : LoaderRun) (s : State) (message : string) :
  resolveModelUri (os env) requiredAsset modelAsset = ResolveThrows message ->
  let s' :=
    loadMotorcycleModel env
      (resolveModelUri (os env) requiredAsset modelAsset) l s in
  modelInScene s' oneBox /\ modelLoaded s' = true /\
  error s' = error s /\ loading s' = loading s /\
  scene s' = (scene s ++ [oneBox])%list.
Proof.
  intros ->. unfold loadMotorcycleModel.
  destruct (gltfLoader env); simpl negb; cbv iota;
    (split; [apply modelInScene_oneBoxModel | repeat split]).
Qed.

End ResolverFacts.

Section PatchFacts.

Open Scope string_scope.

(** X18: [patchThreeJSForMobile] does nothing on the web.  Elsewhere,
    however many times it is applied (the component applies it on mount,
    on context creation and before loading), every texture load gives
    the white pixel, a file load of a URL that contains ".jpg", ".png",
    ".jpeg" or ".webp" gives an empty buffer without reaching the
    original loader, every other file load is the original one, and a
    [Blob] class that exists is kept. *)
Theorem texture_patch_is_stable (os : Platform) (three : Three) (n : nat) :
  (os = Web -> iterate n (patchThreeJSForMobile os) three = three) /\
  (os = Mobile ->
   let patched := iterate (S n) (patchThreeJSForMobile os) three in
   (forall url, TextureLoader_load patched url = WhitePixel) /\
   (forall url, isImageUrl url = true ->
                FileLoader_load patched url = ArrayBuffer []) /\
   (forall url, isImageUrl url = false ->
                FileLoader_load patched url = FileLoader_load three url) /\
   (Blob three <> NoBlob -> Blob patched = Blob three) /\
   (Blob three = NoBlob -> Blob patched = FakeBlob)).
Proof.
  split.
  - intros ->. induction n as [|n IH]; simpl; [reflexivity | exact IH].
  - intros ->. induction n as [|n IH].
    + simpl. repeat split.
      * intros url H. rewrite H.
        destruct url; [discriminate H | reflexivity].
      * intros url H. rewrite H. now rewrite andb_false_r.
      * intros H. now destruct (Blob three).
      * now intros ->.
    + destruct IH as (Ht & Hi & Hf & Hb & Hn).
      change (iterate (S (S n)) (patchThreeJSForMobile Mobile) three)
        with (patchThreeJSForMobile Mobile
                (iterate (S n) (patchThreeJSForMobile Mobile) three)).
      set (p := iterate (S n) (patchThreeJSForMobile Mobile) three) in *.
      clearbody p. cbv zeta. simpl. repeat split.
      * intros url H. rewrite H.
        destruct url; [discriminate H | reflexivity].
      * intros url H. rewrite H, andb_false_r. now apply Hf.
      * intros H. rewrite (Hb H). now destruct (Blob three).
      * intros H. now rewrite (Hn H).
Qed.

(** X19: however many times the patched [load] has wrapped the error
    handler of a manager, an error on a URL that contains ".jpg",
    ".png", ".jpeg" or ".webp" never reaches the handler of the
    application, and an error on any other URL reaches it exactly as
    one call of the original handler; the handler for an image file is
    always null. *)
Theorem manager_patch_is_stable (manager : Manager) (n : nat)
    (url : string) :
  let patched := iterate (S n) patchedLoad_manager manager in
  exists handler,
    onError patched = Some handler /\
    (isImageUrl url = true -> handler url = []) /\
    (isImageUrl url = false ->
     handler url = match onError manager with
                   | Some original => original url
                   | None => []
                   end) /\
    (isImageUrl url = true -> getHandler patched url = None) /\
    (isImageUrl url = false ->
     getHandler patched url = getHandler manager url).
Proof.
  assert (Hw : forall o,
             isImageUrl url = true -> wrapOnError o url = []).
  { intros o H. unfold wrapOnError, isImageUrl in *.
    rewrite !orb_true_iff in H.
    destruct (includes url ".jpg"), (includes url ".png"),
      (includes url ".jpeg"), (includes url ".webp"); simpl; auto;
      now destruct H as [[[H|H]|H]|H]. }
  assert (Hn : forall o,
             isImageUrl url = false ->
             wrapOnError o url
             = match o with Some h => h url | None => [] end).
  { intros o H. unfold wrapOnError, isImageUrl in *.
    rewrite !orb_false_iff in H. destruct H as [[[-> ->] ->] ->].
    reflexivity. }
  induction n as [|n IH]; cbv zeta.
  - simpl. eexists. split; [reflexivity|]. repeat split.
    + apply Hw.
    + apply Hn.
    + intros H. unfold wrapGetHandler. rewrite H.
      now destruct (getHandler manager url).
    + intros H. unfold wrapGetHandler. rewrite H.
      now destruct (getHandler manager url).
  - destruct IH as (h & Hh & H1 & H2 & H3 & H4).
    change (iterate (S (S n)) patchedLoad_manager manager)
      with (patchedLoad_manager (iterate (S n) patchedLoad_manager manager)).
    set (p := iterate (S n) patchedLoad_manager manager) in *.
    clearbody p. simpl. eexists. split; [reflexivity|]. repeat split.
    + apply Hw.
    + intros H. rewrite (Hn _ H), Hh. now apply H2.
    + intros H. unfold wrapGetHandler. rewrite H.
      now destruct (getHandler p url).
    + intros H. unfold wrapGetHandler. rewrite H, (H4 H).
      now destruct (getHandler manager url).
Qed.

End PatchFacts.

(* ================================================================== *)
(** ** More concrete runs *)

Section MoreWitnesses.

Open Scope R_scope.

Lemma hypot_apart (a b : R) : a <> 0 -> hypot a b <> 0.
Proof.
  intros Ha H. unfold hypot in H. apply sqrt_eq_0 in H; nra.
Qed.

Lemma distance_apart (f : Touch * Touch) :
  pageX (snd f) - pageX (fst f) <> 0 -> 0 < distance f.
Proof.
  intros H. destruct (hypot_nonneg (pageX (snd f) - pageX (fst f))
                        (pageY (snd f) - pageY (fst f))) as [Hp|Hz].
  - exact Hp.
  - symmetry in Hz. now apply hypot_apart in Hz.
Qed.

Lemma load_state_is_terminal_witness :
  error (run phone (run phone initialState offline)
           [Grant; Move [finger] {| dx := 30; dy := 4 |}; Release;
            AnimationFrame]) <> None.
Proof.
  apply (proj2 (load_state_is_terminal phone
                  (run phone initialState offline)
                  (AssetRejects "Network request failed")
                  [Grant; Move [finger] {| dx := 30; dy := 4 |}; Release;
                   AnimationFrame])).
  cbn. discriminate.
Defined.

Lemma model_present_after_load_witness :
  bikeModel
    (run phone initialState
       (LoadSettled (AssetRejects "Network request failed")
        :: [Grant; Move [finger; finger] {| dx := 0; dy := 0 |}; Unmount;
            AnimationFrame])) <> None.
Proof.
  apply model_present_after_load. reflexivity.
Defined.

Lemma one_move_rotation_witness :
  let s := run phone initialState (offline ++ [Grant]) in
  let s' := onPanResponderMove [finger] {| dx := 0; dy := 20000 |} s in
  rotationRef s'
  = {| x := Num (clampPitch (0 + 0.0001 * 20000));
       y := Num (PI * 0.25 + 0.005 + 0.0004 * 0) |} /\
  clampPitch (0 + 0.0001 * 20000) = PI / 3.
Proof.
  intros s s'.
  destruct (one_move_rotation finger {| dx := 0; dy := 20000 |} s 0
              (PI * 0.25 + 0.005)) as (H1 & _ & _ & H2 & _).
  - cbn. discriminate.
  - reflexivity.
  - split; [exact H1|]. apply H2. simpl. pose proof PI_4. lra.
Defined.

Lemma zoom_stays_in_range_witness :
  zoomRange
    (zoomRef
       (run phone initialState
          [ContextCreated; Grant;
           Move [{| pageX := 100; pageY := 100 |};
                 {| pageX := 200; pageY := 100 |}] {| dx := 0; dy := 0 |};
           Move [{| pageX := 100; pageY := 100 |};
                 {| pageX := 101; pageY := 100 |}] {| dx := 0; dy := 0 |};
           Release])).
Proof.
  apply zoom_stays_in_range.
  repeat constructor; simpl; apply hypot_apart; lra.
Defined.

Lemma pinch_depends_on_first_and_last_witness :
  let near := ({| pageX := 100; pageY := 100 |},
               {| pageX := 200; pageY := 100 |}) in
  let far := ({| pageX := 100; pageY := 100 |},
              {| pageX := 300; pageY := 100 |}) in
  let g := {| dx := 0; dy := 0 |} in
  let s := run phone initialState [ContextCreated] in
  zoomRef (run phone s (Grant :: pinch g [near; far; near; far]))
  = Num (clampZoom (2.0 * (distance near / distance far))).
Proof.
  intros near far g s.
  apply (proj1 (pinch_depends_on_first_and_last phone near [far; near; far]
                  g s 2.0 ltac:(discriminate) eq_refl
                  ltac:(repeat constructor; apply distance_apart;
                        simpl; lra))).
Defined.

Lemma auto_rotation_adds_up_witness :
  let s := run phone initialState offline in
  let s' := run phone s (repeat AnimationFrame 3) in
  modelYaw s' = Some (Num (PI * 0.25 + 0.005 + 0.005 * INR 3)) /\
  frames s' = (frames s + 3)%nat /\
  rotationRef s' = rotationRef s.
Proof.
  apply (auto_rotation_adds_up phone 3 (run phone initialState offline)
           (PI * 0.25 + 0.005)); reflexivity.
Defined.

Lemma resolver_gives_a_uri_or_throws_witness :
  resolveModelUri Web (AssetId 7) (Build_ModelAsset None None None)
  = ResolvesTo "./assets/models/ducati_v4r.glb" /\
  resolveModelUri Mobile (AssetPath "file:///bike.glb")
    (Build_ModelAsset (Some "unused") None None)
  = ResolvesTo "file:///bike.glb" /\
  (let remote :=
     Build_ModelAsset None (Some EmptyString) (Some "https://cdn/bike.glb")
   in
   localUri remote = Some "https://cdn/bike.glb" \/
   (nonEmpty (localUri remote) = false /\
    uri remote = Some "https://cdn/bike.glb"))%string.
Proof.
  split; [|split].
  - apply (proj1 (proj2 (resolver_gives_a_uri_or_throws Web (AssetId 7)
                           (Build_ModelAsset None None None)))).
    reflexivity.
  - apply (proj1 (proj2 (proj2 (resolver_gives_a_uri_or_throws Mobile
                                  (AssetPath "file:///bike.glb")
                                  (Build_ModelAsset (Some "unused"%string)
                                     None None))))
             eq_refl "file:///bike.glb"%string eq_refl).
    discriminate.
  - apply (proj2 (proj2 (proj2
               (resolver_gives_a_uri_or_throws Mobile (AssetId 7)
                  (Build_ModelAsset None (Some EmptyString)
                     (Some "https://cdn/bike.glb"%string)))))
               eq_refl ltac:(discriminate) eq_refl
               "https://cdn/bike.glb"%string eq_refl).
Defined.

Lemma unresolved_asset_sets_no_error_witness :
  let broken := Build_ModelAsset (Some "download failed"%string) None None in
  let s' :=
    loadMotorcycleModel phone (resolveModelUri Mobile (AssetId 7) broken)
      (Runs (FetchFails "unreachable") (Build_Box3 0 0 0 0)) initialState in
  modelInScene s' oneBox /\ modelLoaded s' = true /\
  error s' = None /\ loading s' = true /\
  scene s' = [oneBox].
Proof.
  intros broken.
  apply (unresolved_asset_sets_no_error phone (AssetId 7) broken
           (Runs (FetchFails "unreachable") (Build_Box3 0 0 0 0))
           initialState "download failed"%string).
  reflexivity.
Defined.

Lemma texture_patch_is_stable_witness :
  let patched := iterate 3 (patchThreeJSForMobile Mobile) cdn in
  iterate 3 (patchThreeJSForMobile Web) cdn = cdn /\
  TextureLoader_load patched "tank_diffuse.png" = WhitePixel /\
  FileLoader_load patched "textures/tank_diffuse.png" = ArrayBuffer [] /\
  FileLoader_load patched "ducati_v4r.glb"
  = FileError "offline: ducati_v4r.glb" /\
  Blob patched = FakeBlob.
Proof.
  destruct (texture_patch_is_stable Web cdn 3) as [Hweb _].
  destruct (texture_patch_is_stable Mobile cdn 2) as [_ Hm].
  destruct (Hm eq_refl) as (Ht & Hi & Hf & _ & Hb).
  split; [now apply Hweb|]. split; [apply Ht|].
  split; [now apply Hi|]. split; [now apply Hf|]. now apply Hb.
Defined.

Lemma manager_patch_is_stable_witness :
  let manager :=
    {| onError := Some (fun url => [url]);
       getHandler := fun _ => Some "TextureLoader"%string |} in
  let patched := iterate 2 patchedLoad_manager manager in
  exists handler,
    onError patched = Some handler /\
    handler "seat.glb"%string = ["seat.glb"%string] /\
    getHandler patched "seat.glb" = Some "TextureLoader"%string.
Proof.
  intros manager.
  destruct (manager_patch_is_stable manager 1 "seat.glb")
    as (handler & Hh & _ & Hn & _ & Hg).
  exists handler. split; [exact Hh|]. split.
  - now apply Hn.
  - now apply Hg.
Defined.

End MoreWitnesses.
